(** * Upload normalisation: weed/storage/needle/needle_parse_upload.go

    A shallow embedding of [ParseUpload], [parsePut], [parseMultipart] and
    [ChecksumReader], together with the small part of Go's [io], [strings],
    [strconv], [path] and [net/http] that these functions lean on.

    Conventions.
    - Go's [int] and [int64] are 64-bit two's complement; they are carried
      in [Z] and every addition that can leave the range is wrapped by
      [wrap64].  Slice lengths are [nat]: a slice never holds 2^59 bytes,
      so [len(x)*10] and [len(x)*9] are taken in [Z] as they stand.
    - A Go [string] is a byte sequence, here [string] (a list of 8-bit
      [ascii]); a [[]byte] is [list byte].
    - A Go function returning [(v, err)] returns a pair whose second
      component is [option error]; [None] is [nil].
    - Code outside this package (compression helpers, MIME tables, the
      hash, the multipart decoder) is collected in [Externals] and stays
      abstract in every theorem. *)

From Stdlib Require Import ZArith List Bool Lia.
From Stdlib Require Import Strings.String Strings.Ascii Strings.Byte.
From Stdlib Require Import DecimalString.
Import ListNotations.
Local Open Scope string_scope.
Local Open Scope list_scope.
Local Open Scope Z_scope.

Set Implicit Arguments.

(** ** Machine integers *)

Definition wrap64 (z : Z) : Z := (z + 2 ^ 63) mod 2 ^ 64 - 2 ^ 63.

(** [sizeLimit + 1] on [int64], and [int(sizeLimit) + 1] on a 64-bit [int]. *)
Definition add64 (a b : Z) : Z := wrap64 (a + b).

(** [len(x)] *)
Definition len {A : Type} (l : list A) : Z := Z.of_nat (List.length l).

(** ** Errors *)

(** An [error] value.  [io_EOF] is the sentinel [io.EOF]; every other error
    is known by its message, as [fmt.Errorf] builds it. *)
Inductive error : Type :=
| io_EOF : error
| NewError (msg : string) : error.

Definition error_Error (e : error) : string :=
  match e with
  | io_EOF => "EOF"
  | NewError msg => msg
  end.

Definition is_EOF (e : error) : bool :=
  match e with
  | io_EOF => true
  | NewError _ => false
  end.

(** [e == io.EOF] on a possibly nil error *)
Definition err_is_EOF (e : option error) : bool :=
  match e with
  | Some x => is_EOF x
  | None => false
  end.

(** ** Readers ([io.Reader]) *)

(** A byte source as the transport presents it: [pending] is what is still
    to be delivered, [failure] what the source reports once [pending] is
    exhausted ([None]: a clean end of stream, [io.EOF]).  The error comes
    in a call of its own, after the last bytes. *)
Record Source : Type := mkSource {
  pending : list byte;
  failure : option error
}.

(** [io.Reader]: [Read t k] is a call [t.Read(p)] with [len(p) = k]; it gives
    the reader after the call, the bytes stored in [p[:n]] and the error.
    [unread] bounds the number of bytes the reader can still deliver. *)
Class io_Reader (T : Type) : Type := {
  Read : T -> nat -> T * list byte * option error;
  unread : T -> nat
}.

Definition Source_Read (s : Source) (k : nat) : Source * list byte * option error :=
  match pending s with
  | [] => (s, [], Some (match failure s with Some e => e | None => io_EOF end))
  | _ :: _ => (mkSource (skipn k (pending s)) (failure s), firstn k (pending s), None)
  end.

#[export] Instance Source_Reader : io_Reader Source := {
  Read := Source_Read;
  unread := fun s => List.length (pending s)
}.

(** [io.LimitedReader]:
<<
    if l.N <= 0 { return 0, EOF }
    if int64(len(p)) > l.N { p = p[0:l.N] }
    n, err = l.R.Read(p)
    l.N -= int64(n)
>> *)
Record LimitedReader (T : Type) : Type := mkLimited {
  lr_R : T;
  lr_N : Z
}.

Definition LimitedReader_Read {T} `{io_Reader T} (l : LimitedReader T) (k : nat)
  : LimitedReader T * list byte * option error :=
  if lr_N l <=? 0 then (l, [], Some io_EOF)
  else
    let k' := if Z.of_nat k >? lr_N l then Z.to_nat (lr_N l) else k in
    let '(r', p, err) := Read (lr_R l) k' in
    (mkLimited r' (lr_N l - len p), p, err).

#[export] Instance LimitedReader_Reader {T} `{io_Reader T} : io_Reader (LimitedReader T) := {
  Read := LimitedReader_Read;
  unread := fun l => unread (lr_R l)
}.

Definition io_LimitReader {T} (r : T) (n : Z) : LimitedReader T := mkLimited r n.

(** [ioutil.ReadAll]: reads in chunks of [MinRead] bytes until the reader
    reports an error; [io.EOF] is the normal end and is not reported.  The
    loop is given as many rounds as the reader has bytes, plus one. *)
Definition MinRead : nat := 512.

Fixpoint ReadAll_loop {T} `{io_Reader T} (rounds : nat) (src : T) (buf : list byte)
  : T * list byte * option error :=
  match rounds with
  | O => (src, buf, None)
  | S n =>
      let '(src', p, err) := Read src MinRead in
      match err with
      | Some e => (src', buf ++ p, if is_EOF e then None else Some e)
      | None => ReadAll_loop n src' (buf ++ p)
      end
  end.

Definition ioutil_ReadAll {T} `{io_Reader T} (src : T) : T * list byte * option error :=
  ReadAll_loop (S (unread src)) src [].

(** [io.Copy(ioutil.Discard, r)]: reads [r] to its end and drops the bytes. *)
Definition io_Copy_Discard {T} `{io_Reader T} (src : T) : T :=
  fst (fst (ioutil_ReadAll src)).

(** ** [hash.Hash] and [ChecksumReader] *)

(** A running hash is determined by the bytes written to it so far. *)
Record hash_Hash : Type := mkHash {
  written : list byte
}.

Definition Hash_Write (h : hash_Hash) (p : list byte) : hash_Hash :=
  mkHash (written h ++ p).

(** [type ChecksumReader struct { h hash.Hash; r io.Reader }] *)
Record ChecksumReader (T : Type) : Type := mkChecksumReader {
  cr_h : hash_Hash;
  cr_r : T
}.

(** [func (cr *ChecksumReader) Read(p []byte) (int, error)]:
<<
    n, err := cr.r.Read(p)
    cr.h.Write(p[:n])
    return n, err
>> *)
Definition ChecksumReader_Read {T} `{io_Reader T} (cr : ChecksumReader T) (k : nat)
  : ChecksumReader T * list byte * option error :=
  let '(r', p, err) := Read (cr_r cr) k in
  (mkChecksumReader (Hash_Write (cr_h cr) p) r', p, err).

#[export] Instance ChecksumReader_Reader {T} `{io_Reader T} : io_Reader (ChecksumReader T) := {
  Read := ChecksumReader_Read;
  unread := fun cr => unread (cr_r cr)
}.

(** ** [strings], [path], [strconv], [fmt] *)

Definition strings_HasPrefix (s pre : string) : bool := String.prefix pre s.

Fixpoint LastIndex_from (s substr : string) (i last : Z) : Z :=
  let last' := if String.prefix substr s then i else last in
  match s with
  | EmptyString => last'
  | String _ s' => LastIndex_from s' substr (i + 1) last'
  end.

(** [strings.LastIndex(s, substr)]: index of the last occurrence, or -1. *)
Definition strings_LastIndex (s substr : string) : Z :=
  LastIndex_from s substr 0 (-1).

(** [s[i:]] *)
Fixpoint string_from (i : nat) (s : string) : string :=
  match i, s with
  | O, _ => s
  | S i', String _ s' => string_from i' s'
  | S _, EmptyString => EmptyString
  end.

Definition lower_ascii (c : ascii) : ascii :=
  let n := N_of_ascii c in
  if ((65 <=? n) && (n <=? 90))%N then ascii_of_N (n + 32) else c.

Definition upper_ascii (c : ascii) : ascii :=
  let n := N_of_ascii c in
  if ((97 <=? n) && (n <=? 122))%N then ascii_of_N (n - 32) else c.

(** [strings.ToLower], on the ASCII letters (bytes above 127 are kept). *)
Fixpoint strings_ToLower (s : string) : string :=
  match s with
  | EmptyString => EmptyString
  | String c s' => String (lower_ascii c) (strings_ToLower s')
  end.

Fixpoint stripTrailingSlashes (s : string) : string :=
  match s with
  | EmptyString => EmptyString
  | String c s' =>
      match stripTrailingSlashes s' with
      | EmptyString => if Ascii.eqb c "/" then EmptyString else String c EmptyString
      | t => String c t
      end
  end.

(** [path.Base]:
<<
    if path == "" { return "." }
    for len(path) > 0 && path[len(path)-1] == '/' { path = path[0 : len(path)-1] }
    if i := strings.LastIndex(path, "/"); i >= 0 { path = path[i+1:] }
    if path == "" { return "/" }
    return path
>> *)
Definition path_Base (p : string) : string :=
  if (p =? "")%string then "."
  else
    let p := stripTrailingSlashes p in
    let i := strings_LastIndex p "/" in
    let p := if i >=? 0 then string_from (Z.to_nat (i + 1)) p else p in
    if (p =? "")%string then "/" else p.

(** [filepath.Base], with the separator ['/'] of the platforms the volume
    server is deployed on. *)
Definition filepath_Base (p : string) : string := path_Base p.

(** [strconv.ParseBool]; the callers drop the error, its text is abridged. *)
Definition strconv_ParseBool (s : string) : bool * option error :=
  if ((s =? "1") || (s =? "t") || (s =? "T") || (s =? "TRUE") || (s =? "true") || (s =? "True"))%string
  then (true, None)
  else if ((s =? "0") || (s =? "f") || (s =? "F") || (s =? "FALSE") || (s =? "false") || (s =? "False"))%string
  then (false, None)
  else (false, Some (NewError "invalid syntax")).

Definition digit_of_ascii (c : ascii) : option Z :=
  let n := N_of_ascii c in
  if ((48 <=? n) && (n <=? 57))%N then Some (Z.of_N n - 48) else None.

Fixpoint parse_digits (s : string) (acc : Z) : option Z :=
  match s with
  | EmptyString => Some acc
  | String c s' =>
      match digit_of_ascii c with
      | Some d => parse_digits s' (acc * 10 + d)
      | None => None
      end
  end.

(** [strconv.ParseUint(s, 10, 64)]: zero on a syntax error, the largest
    [uint64] on a range error. *)
Definition strconv_ParseUint (s : string) : Z * option error :=
  if (s =? "")%string
  then (0, Some (NewError "invalid syntax"))
  else
    match parse_digits s 0 with
    | None => (0, Some (NewError "invalid syntax"))
    | Some v =>
        if v <? 2 ^ 64 then (v, None)
        else (2 ^ 64 - 1, Some (NewError "value out of range"))
    end.

(** The verb [%d] on an [int64]. *)
Definition fmt_d (z : Z) : string := NilZero.string_of_int (Z.to_int z).

Definition hex_digit (n : N) : ascii :=
  if (n <? 10)%N then ascii_of_N (48 + n) else ascii_of_N (87 + n).

(** The verb [%x] on a [[]byte]: two lower-case digits a byte. *)
Fixpoint fmt_x (bs : list byte) : string :=
  match bs with
  | [] => EmptyString
  | b :: bs' =>
      let n := Byte.to_N b in
      String (hex_digit (n / 16)) (String (hex_digit (n mod 16)) (fmt_x bs'))
  end.

Definition fmt_Errorf (msg : string) : error := NewError msg.

(** ** [net/http] and [mime/multipart] *)

(** [http.Header] and [textproto.MIMEHeader]: canonical key to values. *)
Definition http_Header : Type := list (string * list string).

Definition validHeaderFieldByte (c : ascii) : bool :=
  let n := N_of_ascii c in
  ((48 <=? n) && (n <=? 57) || (65 <=? n) && (n <=? 90) || (97 <=? n) && (n <=? 122))%N
  || existsb (Ascii.eqb c)
       ["!"; "#"; "$"; "%"; "&"; "'"; "*"; "+"; "-"; "."; "^"; "_"; "`"; "|"; "~"]%char.

Fixpoint allValidHeaderBytes (s : string) : bool :=
  match s with
  | EmptyString => true
  | String c s' => validHeaderFieldByte c && allValidHeaderBytes s'
  end.

Fixpoint canonicalise (upper : bool) (s : string) : string :=
  match s with
  | EmptyString => EmptyString
  | String c s' =>
      let c' := if upper then upper_ascii c else lower_ascii c in
      String c' (canonicalise (Ascii.eqb c' "-") s')
  end.

(** [textproto.CanonicalMIMEHeaderKey]: a key that is not a header token is
    left as it is; otherwise the first letter and every letter after a
    hyphen go to upper case, the others to lower case. *)
Definition CanonicalMIMEHeaderKey (s : string) : string :=
  if allValidHeaderBytes s then canonicalise true s else s.

Fixpoint Header_lookup (h : http_Header) (key : string) : option (list string) :=
  match h with
  | [] => None
  | (k, v) :: h' => if (k =? key)%string then Some v else Header_lookup h' key
  end.

(** [h.Get(key)]: the first value stored under the canonical form of
    [key], or the empty string. *)
Definition Header_Get (h : http_Header) (key : string) : string :=
  match Header_lookup h (CanonicalMIMEHeaderKey key) with
  | Some (v :: _) => v
  | _ => ""
  end.

(** [multipart.Part]: the file name of its Content-Disposition, its headers
    and its content. *)
Record Part : Type := mkPart {
  part_FileName : string;
  part_Header : http_Header;
  part_Body : Source
}.

#[export] Instance Part_Reader : io_Reader Part := {
  Read := fun p k =>
    let '(b, bytes, err) := Source_Read (part_Body p) k in
    (mkPart (part_FileName p) (part_Header p) b, bytes, err);
  unread := fun p => List.length (pending (part_Body p))
}.

(** [multipart.Reader]: the sections that [NextPart] has still to hand out,
    and the error it reports after the last one ([io.EOF] when the envelope
    ends as it should). *)
Record multipart_Reader : Type := mkForm {
  sections : list Part;
  ending : error
}.

Definition NextPart (form : multipart_Reader)
  : multipart_Reader * option Part * option error :=
  match sections form with
  | [] => (form, None, Some (ending form))
  | p :: ps => (mkForm ps (ending form), Some p, None)
  end.

(** [http.Request], as far as this file reads it.  [MultipartReader] is what
    [r.MultipartReader()] makes of the body: an error for a body that is no
    multipart envelope, else the reader over its sections.  [Body] is the
    raw stream below it and [BodyClosed] records [r.Body.Close()].  A server
    request always has a body, so [r.Body != nil] holds throughout. *)
Record Request : Type := mkRequest {
  Method : string;
  Header : http_Header;
  FormValue : string -> string;
  Body : Source;
  BodyClosed : bool;
  MultipartReader : multipart_Reader + error
}.

Definition set_Body (r : Request) (b : Source) : Request :=
  mkRequest (Method r) (Header r) (FormValue r) b (BodyClosed r) (MultipartReader r).

Definition Body_Close (r : Request) : Request :=
  mkRequest (Method r) (Header r) (FormValue r) (Body r) true (MultipartReader r).

Definition set_MultipartReader (r : Request) (f : multipart_Reader) : Request :=
  mkRequest (Method r) (Header r) (FormValue r) (Body r) (BodyClosed r) (inl f).

(** ** What the package takes from outside

    [PairNamePrefix], [ReadTTL] and the type [TTL] belong to this package
    but to other files; [util] is a sibling package; the rest is Go's
    library.  [TTL] is left as a type parameter. *)
Class Externals (TTL : Type) : Type := mkExternals {
  PairNamePrefix : string;
  (** [ReadTTL(s)]: the pointer it returns, [None] for nil. *)
  ReadTTL : string -> option TTL;
  util_DecompressData : list byte -> list byte * option error;
  util_GzipData : list byte -> list byte * option error;
  (** [util.IsGzippableFileType(ext, mtype) (shouldBeZipped, iAmSure bool)] *)
  util_IsGzippableFileType : string -> string -> bool * bool;
  http_DetectContentType : list byte -> string;
  mime_TypeByExtension : string -> string;
  (** [md5.New()] followed by writes of these bytes and [Sum(nil)] *)
  md5_Sum : list byte -> list byte;
  (** [gzip.NewReader] over a reader that delivers these bytes and ends in
      this way: an error when the header is not a gzip header, else the
      decoded stream. *)
  gzip_decode : list byte -> option error -> Source + error
}.

(** ** The package *)

Section Needle.

Context (TTL : Type) `{Externals TTL}.

(** [gzip.NewReader(reader)]: the header is read at once, the rest on
    demand; what the decoder makes of the bytes is [gzip_decode]'s. *)
Definition gzip_NewReader {T} `{io_Reader T} (reader : T) : Source + error :=
  let '(_, compressed, err) := ioutil_ReadAll reader in
  gzip_decode compressed err.

Definition md5_New : hash_Hash := mkHash [].

(** [func (cr *ChecksumReader) Checksum() string]:
    [fmt.Sprintf("%x", cr.h.Sum(nil))] *)
Definition Checksum {T} (cr : ChecksumReader T) : string :=
  fmt_x (md5_Sum (written (cr_h cr))).

Record ParsedUpload : Type := mkParsedUpload {
  FileName : string;
  Data : list byte;
  MimeType : string;
  PairMap : list (string * string);
  IsGzipped : bool;
  OriginalDataSize : Z;
  ModifiedTime : Z;
  Ttl : option TTL;
  IsChunkedFile : bool;
  UncompressedData : list byte
}.

Definition set_FileName (pu : ParsedUpload) (v : string) : ParsedUpload :=
  mkParsedUpload v (Data pu) (MimeType pu) (PairMap pu) (IsGzipped pu)
    (OriginalDataSize pu) (ModifiedTime pu) (Ttl pu) (IsChunkedFile pu) (UncompressedData pu).

Definition set_Data (pu : ParsedUpload) (v : list byte) : ParsedUpload :=
  mkParsedUpload (FileName pu) v (MimeType pu) (PairMap pu) (IsGzipped pu)
    (OriginalDataSize pu) (ModifiedTime pu) (Ttl pu) (IsChunkedFile pu) (UncompressedData pu).

Definition set_MimeType (pu : ParsedUpload) (v : string) : ParsedUpload :=
  mkParsedUpload (FileName pu) (Data pu) v (PairMap pu) (IsGzipped pu)
    (OriginalDataSize pu) (ModifiedTime pu) (Ttl pu) (IsChunkedFile pu) (UncompressedData pu).

Definition set_IsGzipped (pu : ParsedUpload) (v : bool) : ParsedUpload :=
  mkParsedUpload (FileName pu) (Data pu) (MimeType pu) (PairMap pu) v
    (OriginalDataSize pu) (ModifiedTime pu) (Ttl pu) (IsChunkedFile pu) (UncompressedData pu).

Definition set_OriginalDataSize (pu : ParsedUpload) (v : Z) : ParsedUpload :=
  mkParsedUpload (FileName pu) (Data pu) (MimeType pu) (PairMap pu) (IsGzipped pu)
    v (ModifiedTime pu) (Ttl pu) (IsChunkedFile pu) (UncompressedData pu).

Definition set_ModifiedTime (pu : ParsedUpload) (v : Z) : ParsedUpload :=
  mkParsedUpload (FileName pu) (Data pu) (MimeType pu) (PairMap pu) (IsGzipped pu)
    (OriginalDataSize pu) v (Ttl pu) (IsChunkedFile pu) (UncompressedData pu).

Definition set_Ttl (pu : ParsedUpload) (v : option TTL) : ParsedUpload :=
  mkParsedUpload (FileName pu) (Data pu) (MimeType pu) (PairMap pu) (IsGzipped pu)
    (OriginalDataSize pu) (ModifiedTime pu) v (IsChunkedFile pu) (UncompressedData pu).

Definition set_IsChunkedFile (pu : ParsedUpload) (v : bool) : ParsedUpload :=
  mkParsedUpload (FileName pu) (Data pu) (MimeType pu) (PairMap pu) (IsGzipped pu)
    (OriginalDataSize pu) (ModifiedTime pu) (Ttl pu) v (UncompressedData pu).

Definition set_UncompressedData (pu : ParsedUpload) (v : list byte) : ParsedUpload :=
  mkParsedUpload (FileName pu) (Data pu) (MimeType pu) (PairMap pu) (IsGzipped pu)
    (OriginalDataSize pu) (ModifiedTime pu) (Ttl pu) (IsChunkedFile pu) v.

(** [fmt.Errorf("file over the limited %d bytes", sizeLimit)] *)
Definition errOverLimit (sizeLimit : Z) : error :=
  fmt_Errorf ("file over the limited " ++ fmt_d sizeLimit ++ " bytes")%string.

(** [fmt.Errorf("Content-MD5 did not match md5 of file data [%s] != [%s]", ...)] *)
Definition errChecksum (expected actual : string) : error :=
  fmt_Errorf ("Content-MD5 did not match md5 of file data [" ++ expected
              ++ "] != [" ++ actual ++ "]")%string.

(** [fmt.Errorf("Content-Encoding == gzip but content was not gzipped: %s", err)] *)
Definition errNotGzipped (err : error) : error :=
  fmt_Errorf ("Content-Encoding == gzip but content was not gzipped: "
              ++ error_Error err)%string.

(** [parsePut], lines 87-97.  The error of [ReadAll] lands in the named
    result [e]; the function ends in [return nil]. *)
Definition parsePut (r : Request) (sizeLimit : Z) (pu : ParsedUpload)
  : Request * ParsedUpload * option error :=
  let pu := set_IsGzipped pu (Header_Get (Header r) "Content-Encoding" =? "gzip")%string in
  let pu := set_MimeType pu (Header_Get (Header r) "Content-Type") in
  let pu := set_FileName pu "" in
  let '(lim, data, e) := ioutil_ReadAll (io_LimitReader (Body r) (add64 sizeLimit 1)) in
  let pu := set_Data pu data in
  let r := set_Body r (lr_R lim) in
  let r :=
    if err_is_EOF e || (OriginalDataSize pu =? add64 sizeLimit 1)
    then set_Body r (io_Copy_Discard (Body r))
    else r in
  let r := Body_Close r in
  (r, pu, None).

(** Lines 151-156: the payload is read through a [ChecksumReader] and the
    digest compared with the expected one.  On a mismatch the source
    returns at once with the mismatch error; otherwise [e] is that of
    [ReadAll]. *)
Definition readChecked {T} `{io_Reader T} (expectedChecksum : string) (reader : T)
    (pu : ParsedUpload) : ParsedUpload * option error :=
  let cr := mkChecksumReader md5_New reader in
  let '(cr, data, e) := ioutil_ReadAll cr in
  let pu := set_Data pu data in
  if negb (expectedChecksum =? Checksum cr)%string
  then (pu, Some (errChecksum expectedChecksum (Checksum cr)))
  else (pu, e).

(** Lines 141-159: the payload of the first section.  Both early returns
    of the block leave with [e != nil], which is what the test of line 161
    does with the [e] that falls through: the result is [(pu, e)] and
    [parseMultipart] returns when [e] is not nil. *)
Definition readFirstPart (r : Request) (sizeLimit : Z) (part : Part) (pu : ParsedUpload)
  : ParsedUpload * option error :=
  let reader := io_LimitReader part (add64 sizeLimit 1) in
  let expectedChecksum := Header_Get (Header r) "Content-MD5" in
  if negb (expectedChecksum =? "")%string then
    if (Header_Get (Header r) "Content-Encoding" =? "gzip")%string then
      match gzip_NewReader reader with
      | inr err => (pu, Some (errNotGzipped err))
      | inl gr => readChecked expectedChecksum gr pu
      end
    else readChecked expectedChecksum reader pu
  else
    let '(_, data, e) := ioutil_ReadAll reader in
    (set_Data pu data, e).

(** Lines 171-197, the loop [for pu.FileName == ""] over [form.NextPart()]:
    [ps] are the sections the reader has still to hand out.  The result
    carries the sections left in the reader. *)
Fixpoint scanParts (sizeLimit : Z) (ps : list Part) (pu : ParsedUpload)
  : list Part * ParsedUpload * option error :=
  match ps with
  | [] => ([], pu, None)
  | part2 :: rest =>
      let fName := part_FileName part2 in
      if negb (fName =? "")%string then
        let '(_, data2, fe2) := ioutil_ReadAll (io_LimitReader part2 (add64 sizeLimit 1)) in
        match fe2 with
        | Some _ => (rest, pu, fe2)
        | None =>
            if len data2 =? add64 sizeLimit 1
            then (rest, pu, Some (errOverLimit sizeLimit))
            else (rest, set_FileName (set_Data pu data2) (path_Base fName), None)
        end
      else scanParts sizeLimit rest pu
  end.

(** Lines 199-216. *)
Definition finishMultipart (r : Request) (part : Part) (pu : ParsedUpload) : ParsedUpload :=
  let pu := set_IsChunkedFile pu (fst (strconv_ParseBool (FormValue r "cm"))) in
  if negb (IsChunkedFile pu) then
    let dotIndex := strings_LastIndex (FileName pu) "." in
    let mtype :=
      if dotIndex >? 0
      then mime_TypeByExtension (strings_ToLower (string_from (Z.to_nat dotIndex) (FileName pu)))
      else "" in
    let contentType := Header_Get (part_Header part) "Content-Type" in
    let pu :=
      if (negb (contentType =? "") && negb (contentType =? "application/octet-stream")
          && negb (mtype =? contentType))%string
      then set_MimeType pu contentType
      else pu in
    set_IsGzipped pu (Header_Get (part_Header part) "Content-Encoding" =? "gzip")%string
  else pu.

(** [parseMultipart] without its deferred function, lines 121-218. *)
Definition parseMultipart_body (r : Request) (sizeLimit : Z) (pu : ParsedUpload)
  : Request * ParsedUpload * option error :=
  match MultipartReader r with
  | inr fe => (r, pu, Some fe)
  | inl form =>
      match NextPart form with
      | (form, None, fe) => (set_MultipartReader r form, pu, fe)
      | (form, Some part, _) =>
          let r := set_MultipartReader r form in
          let pu := set_FileName pu (part_FileName part) in
          let pu :=
            if negb (FileName pu =? "")%string
            then set_FileName pu (path_Base (FileName pu))
            else pu in
          let '(pu, e) := readFirstPart r sizeLimit part pu in
          match e with
          | Some _ => (r, pu, e)
          | None =>
              if len (Data pu) =? add64 sizeLimit 1
              then (r, pu, Some (errOverLimit sizeLimit))
              else
                let '(rest, pu, e) :=
                  if (FileName pu =? "")%string
                  then scanParts sizeLimit (sections form) pu
                  else (sections form, pu, None) in
                let r := set_MultipartReader r (mkForm rest (ending form)) in
                match e with
                | Some _ => (r, pu, e)
                | None => (r, finishMultipart r part pu, None)
                end
          end
      end
  end.

(** [parseMultipart], lines 114-219: the deferred function drains and
    closes the body when the function leaves with an error. *)
Definition parseMultipart (r : Request) (sizeLimit : Z) (pu : ParsedUpload)
  : Request * ParsedUpload * option error :=
  let '(r, pu, e) := parseMultipart_body r sizeLimit pu in
  match e with
  | Some _ => (Body_Close (set_Body r (io_Copy_Discard (Body r))), pu, e)
  | None => (r, pu, e)
  end.

(** Lines 35-41: the headers under the reserved prefix, first value each. *)
Fixpoint collectPairs (h : http_Header) : list (string * string) :=
  match h with
  | [] => []
  | (k, v) :: h' =>
      match v with
      | v0 :: _ =>
          if strings_HasPrefix k PairNamePrefix
          then (k, v0) :: collectPairs h'
          else collectPairs h'
      | [] => collectPairs h'
      end
  end.

Definition newParsedUpload (r : Request) : ParsedUpload :=
  mkParsedUpload "" [] "" (collectPairs (Header r)) false 0 0 None false [].

(** Lines 58-64. *)
Definition detectMimeType (pu : ParsedUpload) : ParsedUpload :=
  if (MimeType pu =? "")%string then
    let pu := set_MimeType pu (http_DetectContentType (Data pu)) in
    if (MimeType pu =? "application/octet-stream")%string
    then set_MimeType pu ""
    else pu
  else pu.

(** Lines 65-83. *)
Definition negotiateCompression (pu : ParsedUpload) : ParsedUpload :=
  if IsGzipped pu then
    match util_DecompressData (Data pu) with
    | (unzipped, None) =>
        set_UncompressedData (set_OriginalDataSize pu (len unzipped)) unzipped
    | (_, Some _) => pu
    end
  else
    let ext := filepath_Base (FileName pu) in
    let '(shouldGzip, iAmSure) := util_IsGzippableFileType ext (MimeType pu) in
    if (MimeType pu =? "")%string && negb iAmSure || shouldGzip && iAmSure then
      match util_GzipData (Data pu) with
      | (compressedData, None) =>
          if len compressedData * 10 <? len (Data pu) * 9
          then set_IsGzipped (set_Data pu compressedData) true
          else pu
      | (_, Some _) => pu
      end
    else pu.

(** [ParseUpload], lines 34-85.  The result is the request as the call
    leaves it, the record and the error. *)
Definition ParseUpload (r : Request) (sizeLimit : Z)
  : Request * ParsedUpload * option error :=
  let pu := newParsedUpload r in
  let '(r, pu, e) :=
    if (Method r =? "POST")%string
    then parseMultipart r sizeLimit pu
    else parsePut r sizeLimit pu in
  match e with
  | Some _ => (r, pu, e)
  | None =>
      let pu := set_ModifiedTime pu (fst (strconv_ParseUint (FormValue r "ts"))) in
      let pu := set_Ttl pu (ReadTTL (FormValue r "ttl")) in
      let pu := set_OriginalDataSize pu (len (Data pu)) in
      let pu := set_UncompressedData pu (Data pu) in
      let pu := detectMimeType pu in
      let pu := negotiateCompression pu in
      (r, pu, None)
  end.

End Needle.

(** ** A small instance of the externals

    The theorems below hold for every instance of [Externals].  This one is
    small enough to run the functions on concrete requests: a codec that
    folds a leading run of zero bytes into a count behind the two magic
    bytes of gzip, a two-byte digest, and tables with a few rows. *)
Module Demo.

Fixpoint leadingZeros (cap : nat) (d : list byte) : nat :=
  match cap, d with
  | S cap', b :: d' => if Byte.eqb b x00 then S (leadingZeros cap' d') else O
  | _, _ => O
  end.

Definition byte_of_nat (n : nat) : byte :=
  match Byte.of_nat n with
  | Some b => b
  | None => x00
  end.

Definition GzipData (d : list byte) : list byte * option error :=
  let n := leadingZeros 255 d in
  (x1f :: x8b :: byte_of_nat n :: skipn n d, None).

Definition DecompressData (c : list byte) : list byte * option error :=
  match c with
  | x1f :: x8b :: n :: rest => (repeat x00 (Byte.to_nat n) ++ rest, None)
  | _ => (c, Some (NewError "unsupported compression"))
  end.

Definition gzip_decode (c : list byte) (err : option error) : Source + error :=
  match c with
  | x1f :: x8b :: n :: rest => inl (mkSource (repeat x00 (Byte.to_nat n) ++ rest) err)
  | _ => inr (NewError "gzip: invalid header")
  end.

Definition IsGzippableFileType (ext mtype : string) : bool * bool :=
  if strings_HasPrefix mtype "text/" then (true, true)
  else if strings_HasPrefix mtype "image/" then (false, true)
  else (false, false).

Definition printable (b : byte) : bool :=
  let n := Byte.to_N b in
  ((32 <=? n) && (n <? 127) || (n =? 10) || (n =? 13) || (n =? 9))%N.

Definition DetectContentType (d : list byte) : string :=
  if forallb printable d then "text/plain; charset=utf-8" else "application/octet-stream".

Definition TypeByExtension (ext : string) : string :=
  if (ext =? ".css")%string then "text/css; charset=utf-8"
  else if (ext =? ".txt")%string then "text/plain; charset=utf-8"
  else if (ext =? ".jpg")%string then "image/jpeg"
  else "".

Definition digest (d : list byte) : list byte :=
  [byte_of_nat (fold_left (fun acc b => (acc + Byte.to_nat b) mod 256)%nat d O);
   byte_of_nat (List.length d mod 256)].

Definition ReadTTL (s : string) : option string :=
  if (s =? "")%string then None else Some s.

#[export] Instance externals : Externals string := {
  PairNamePrefix := "Seaweed-";
  ReadTTL := ReadTTL;
  util_DecompressData := DecompressData;
  util_GzipData := GzipData;
  util_IsGzippableFileType := IsGzippableFileType;
  http_DetectContentType := DetectContentType;
  mime_TypeByExtension := TypeByExtension;
  md5_Sum := digest;
  gzip_decode := gzip_decode
}.

Definition bytes (s : string) : list byte := list_byte_of_string s.

Definition noForm : string -> string := fun _ => "".

(** A request with one body. *)
Definition put (hdr : http_Header) (body : Source) : Request :=
  mkRequest "PUT" hdr noForm body false (inr (NewError "request Content-Type isn't multipart/form-data")).

(** A multipart request: the raw body is not looked at by the examples. *)
Definition post (hdr : http_Header) (ps : list Part) : Request :=
  mkRequest "POST" hdr noForm (mkSource [] None) false (inl (mkForm ps io_EOF)).

Definition section (name : string) (hdr : http_Header) (content : string) : Part :=
  mkPart name hdr (mkSource (bytes content) None).

(** The requests the statements are run on. *)

Definition helloPut : Request :=
  put [("Content-Type", ["text/plain"])] (mkSource (bytes "hello") None).

(** A body that breaks off after two bytes. *)
Definition brokenPut : Request :=
  put [("Content-Type", ["text/plain"])]
      (mkSource (bytes "he") (Some (NewError "connection reset by peer"))).

Definition longPut : Request := put [] (mkSource (bytes "abcdef") None).

(** gzip is declared, the body is plain text. *)
Definition declaredPut : Request :=
  put [("Content-Encoding", ["gzip"])] (mkSource (bytes "hello") None).

(** Forty zero bytes, no header at all. *)
Definition zerosPut : Request := put [] (mkSource (repeat x00 40) None).

(** Ten bytes that the codec brings to nine. *)
Definition boundaryBody : list byte := repeat x00 4 ++ bytes "abcdef".

Definition boundaryPut : Request := put [] (mkSource boundaryBody None).

Definition mismatchPost : Request :=
  post [("Content-Md5", ["abc123"])] [section "a.txt" [] "hello"].

Definition overPost : Request := post [] [section "a.txt" [] "hello"].

Definition scanPost : Request :=
  post [] [section "" [] "hello"; section "" [] "x";
           section "d/b.txt" [] "world"; section "c.txt" [] "zzz"].

(** The expected digest is that of the first section, not of the second. *)
Definition checkedScanPost : Request :=
  post [("Content-Md5", ["1405"])] [section "" [] "hello"; section "b.txt" [] "world"].

(** The record [ParseUpload] has in hand for [boundaryPut] when the
    negotiation starts. *)
Definition boundaryRecord : ParsedUpload string :=
  mkParsedUpload "" boundaryBody "" [] false 10 0 None false boundaryBody.

(** The same for [zerosPut]. *)
Definition zerosRecord : ParsedUpload string :=
  mkParsedUpload "" (repeat x00 40) "" [] false 40 0 None false (repeat x00 40).

End Demo.

(** ** Vocabulary of the statements *)

(** What [ReadAll] reports for the way a source ends: [io.EOF] is the
    normal end. *)
Definition reported (f : option error) : option error :=
  match f with
  | Some e => if is_EOF e then None else Some e
  | None => None
  end.

(** The error a limited read reports: none when the limit stops it, that
    of the source when the source ends first. *)
Definition limited_error (pend : list byte) (fail : option error) (N : Z) : option error :=
  if N <=? 0 then None
  else if len pend <? N then reported fail
  else None.

(** The bytes a read capped at [sizeLimit + 1] takes from a content. *)
Definition capped (sizeLimit : Z) (content : list byte) : list byte :=
  firstn (Z.to_nat (add64 sizeLimit 1)) content.

Section Stages.

Context {TTL : Type} `{Externals TTL}.

(** The two stages of [ParseUpload]: the acquisition of lines 43-47 and
    what lines 52-83 do to an acquired record. *)
Definition acquire (r : Request) (sizeLimit : Z) : Request * ParsedUpload TTL * option error :=
  if (Method r =? "POST")%string
  then parseMultipart r sizeLimit (newParsedUpload r)
  else parsePut r sizeLimit (newParsedUpload r).

Definition finalize (r : Request) (pu : ParsedUpload TTL) : ParsedUpload TTL :=
  let pu := set_ModifiedTime pu (fst (strconv_ParseUint (FormValue r "ts"))) in
  let pu := set_Ttl pu (ReadTTL (FormValue r "ttl")) in
  let pu := set_OriginalDataSize pu (len (Data pu)) in
  let pu := set_UncompressedData pu (Data pu) in
  negotiateCompression (detectMimeType pu).

(** The bytes the [ChecksumReader] of the first section is fed: the capped
    content, decoded first when the request declares gzip ([None] when the
    decoder refuses the header), and the error its reading ends in. *)
Definition consumedStream (r : Request) (sizeLimit : Z) (part : Part)
  : option (list byte * option error) :=
  let content := pending (part_Body part) in
  let raw := capped sizeLimit content in
  let err := limited_error content (failure (part_Body part)) (add64 sizeLimit 1) in
  if (Header_Get (Header r) "Content-Encoding" =? "gzip")%string then
    match gzip_decode raw err with
    | inl gr => Some (pending gr, reported (failure gr))
    | inr _ => None
    end
  else Some (raw, err).

(** What the first section yields when the digest, if one is asked for,
    agrees: the capped content when the request carries no Content-MD5,
    the stream fed to the [ChecksumReader] when it does. *)
Definition acquiredFirst (r : Request) (sizeLimit : Z) (part : Part)
  : option (list byte * option error) :=
  if (Header_Get (Header r) "Content-MD5" =? "")%string
  then Some (capped sizeLimit (pending (part_Body part)),
             limited_error (pending (part_Body part)) (failure (part_Body part))
                           (add64 sizeLimit 1))
  else consumedStream r sizeLimit part.

(** The comparison of line 153, passed trivially when no digest is asked
    for. *)
Definition checksumAgrees (r : Request) (bytes : list byte) : bool :=
  (Header_Get (Header r) "Content-MD5" =? "")%string
  || (Header_Get (Header r) "Content-MD5" =? fmt_x (md5_Sum bytes))%string.

Definition unnamed (p : Part) : Prop := part_FileName p = "".

(** Lines 136-139: the record [parseMultipart] hands to the first read. *)
Definition namedAfter (part : Part) (pu : ParsedUpload TTL) : ParsedUpload TTL :=
  let pu := set_FileName pu (part_FileName part) in
  if negb (FileName pu =? "")%string then set_FileName pu (path_Base (FileName pu)) else pu.

(** The test of line 73: whether compression is attempted on a record that
    is not marked compressed. *)
Definition compressionAttempted (pu : ParsedUpload TTL) : bool :=
  let '(shouldGzip, iAmSure) :=
    util_IsGzippableFileType (filepath_Base (FileName pu)) (MimeType pu) in
  (MimeType pu =? "")%string && negb iAmSure || shouldGzip && iAmSure.

(** The compression helpers lose nothing: what [GzipData] produces,
    [DecompressData] takes back. *)
Definition lossless : Prop :=
  forall d c, util_GzipData d = (c, None) -> util_DecompressData c = (d, None).

(** The three components of what [ParseUpload] returns. *)
Definition requestOf (o : Request * ParsedUpload TTL * option error) : Request := fst (fst o).
Definition recordOf (o : Request * ParsedUpload TTL * option error) : ParsedUpload TTL := snd (fst o).
Definition errorOf (o : Request * ParsedUpload TTL * option error) : option error := snd o.

(** The four ways an acquired record [pu0] leaves the compression
    negotiation of lines 65-83 as [pu]. *)
Inductive Negotiated (pu0 pu : ParsedUpload TTL) : Prop :=
| Declared_decoded (unzipped : list byte) :
    IsGzipped pu0 = true ->
    util_DecompressData (Data pu0) = (unzipped, None) ->
    IsGzipped pu = true ->
    Data pu = Data pu0 ->
    UncompressedData pu = unzipped ->
    OriginalDataSize pu = len unzipped ->
    Negotiated pu0 pu
| Declared_undecoded (junk : list byte) (e : error) :
    IsGzipped pu0 = true ->
    util_DecompressData (Data pu0) = (junk, Some e) ->
    IsGzipped pu = true ->
    Data pu = Data pu0 ->
    UncompressedData pu = Data pu0 ->
    OriginalDataSize pu = len (Data pu0) ->
    Negotiated pu0 pu
| Freshly_compressed :
    IsGzipped pu0 = false ->
    util_GzipData (Data pu0) = (Data pu, None) ->
    len (Data pu) * 10 < len (Data pu0) * 9 ->
    IsGzipped pu = true ->
    UncompressedData pu = Data pu0 ->
    OriginalDataSize pu = len (Data pu0) ->
    Negotiated pu0 pu
| Left_plain :
    IsGzipped pu0 = false ->
    IsGzipped pu = false ->
    Data pu = Data pu0 ->
    UncompressedData pu = Data pu0 ->
    OriginalDataSize pu = len (Data pu0) ->
    Negotiated pu0 pu.

End Stages.

(** ** Further vocabulary *)

(** Whether a name holds the separator of [path]. *)
Fixpoint has_slash (s : string) : bool :=
  match s with
  | EmptyString => false
  | String c s' => Ascii.eqb c "/" || has_slash s'
  end.

(** A name without directory part: no separator in it, or the root alone
    (what [path.Base] makes of a name of separators only). *)
Definition baseNameOnly (s : string) : Prop := has_slash s = false \/ s = "/".

(** The digits of the verb [%x]. *)
Definition is_lower_hex (c : ascii) : bool :=
  let n := N_of_ascii c in
  ((48 <=? n) && (n <=? 57) || (97 <=? n) && (n <=? 102))%N.

Fixpoint all_lower_hex (s : string) : bool :=
  match s with
  | EmptyString => true
  | String c s' => is_lower_hex c && all_lower_hex s'
  end.

(** The request [r] with other form values. *)
Definition withForm (r : Request) (f : string -> string) : Request :=
  mkRequest (Method r) (Header r) f (Body r) (BodyClosed r) (MultipartReader r).

(** The type that [http.DetectContentType] gives to what it does not
    recognise. *)
Definition octetStream : string := "application/octet-stream".

(** Further requests for the small instance. *)
Module MoreDemo.

Import Demo.

(** The expected digest is written with an upper-case digit. *)
Definition upperPost : Request :=
  post [("Content-Md5", ["14A5"])] [section "a.txt" [] "hello"].

(** A POST whose body is no multipart envelope. *)
Definition plainPost : Request :=
  mkRequest "POST" [("Content-Type", ["text/plain"])] noForm
    (mkSource (bytes "plain body") None) false
    (inr (NewError "request Content-Type isn't multipart/form-data")).

(** An envelope that ends before any section. *)
Definition emptyPost : Request := post [] [].

(** gzip and a digest are declared, the section is plain text. *)
Definition refusedPost : Request :=
  post [("Content-Md5", ["1405"]); ("Content-Encoding", ["gzip"])]
       [section "a.txt" [] "hello"].

(** The first section has no name and declares gzip; the second is named. *)
Definition encodedScanPost : Request :=
  post [] [mkPart "" [("Content-Encoding", ["gzip"])] (mkSource (bytes "hello") None);
           section "b.txt" [] "world"].

Definition namelessPost : Request :=
  post [] [section "" [] "hello"; section "" [] "x"].

Definition namedFirstPost : Request :=
  post [] [section "dir/a.txt" [] "hello"; section "b.txt" [] "world"].

(** What [zerosPut] stores, sent again with gzip declared. *)
Definition zerosAgainPut : Request :=
  put [("Content-Encoding", ["gzip"])] (mkSource [x1f; x8b; x28] None).

(** The only section breaks off after two bytes. *)
Definition brokenPost : Request :=
  post [] [mkPart "a.txt" []
             (mkSource (bytes "he") (Some (NewError "connection reset by peer")))].

(** The named section breaks off after two bytes. *)
Definition brokenScanPost : Request :=
  post [] [section "" [] "hello";
           mkPart "b.txt" []
             (mkSource (bytes "wo") (Some (NewError "connection reset by peer")))].

(** A form in which every field is unreadable. *)
Definition badForm : string -> string := fun _ => "not a number".

End MoreDemo.

(** * Properties *)

Unset Implicit Arguments.

(** Evaluation of a closed statement. *)
Ltac run := vm_compute; reflexivity.

(** ** Arithmetic on [int64] *)

Lemma wrap64_id (z : Z) : - 2 ^ 63 <= z < 2 ^ 63 -> wrap64 z = z.
Proof.
  intros Hz. unfold wrap64.
  rewrite Z.mod_small by lia. lia.
Qed.

Lemma wrap64_range (z : Z) : - 2 ^ 63 <= wrap64 z < 2 ^ 63.
Proof.
  unfold wrap64.
  pose proof (Z.mod_pos_bound (z + 2 ^ 63) (2 ^ 64) ltac:(lia)). lia.
Qed.

Lemma add64_succ (s : Z) : - 2 ^ 63 <= s < 2 ^ 63 - 1 -> add64 s 1 = s + 1.
Proof. intros Hs. unfold add64. apply wrap64_id. lia. Qed.

Lemma len_nonneg {A} (l : list A) : 0 <= len l.
Proof. unfold len. lia. Qed.

Lemma len_app {A} (l1 l2 : list A) : len (l1 ++ l2) = len l1 + len l2.
Proof. unfold len. rewrite length_app. lia. Qed.

(** ** [ioutil.ReadAll] over the readers of this file *)

Lemma reported_not_EOF (f : option error) : err_is_EOF (reported f) = false.
Proof. destruct f as [[|m]|]; reflexivity. Qed.

Lemma ReadAll_loop_Source (rounds : nat) :
  forall (pend : list byte) (fail : option error) (buf : list byte),
    (List.length pend < rounds)%nat ->
    ReadAll_loop rounds (mkSource pend fail) buf
    = (mkSource [] fail, buf ++ pend, reported fail).
Proof.
  induction rounds as [|n IH]; intros pend fail buf Hlt; [lia|].
  destruct pend as [|b pend'].
  - cbn. rewrite app_nil_r. destruct fail as [e|]; reflexivity.
  - cbn [ReadAll_loop Read Source_Reader Source_Read pending failure].
    rewrite IH.
    + rewrite <- app_assoc, firstn_skipn. reflexivity.
    + rewrite length_skipn. cbn [List.length] in *. unfold MinRead. lia.
Qed.

Lemma ReadAll_Source (s : Source) :
  ioutil_ReadAll s = (mkSource [] (failure s), pending s, reported (failure s)).
Proof.
  destruct s as [pend fail]. unfold ioutil_ReadAll.
  cbn [unread Source_Reader pending failure].
  rewrite ReadAll_loop_Source by lia. reflexivity.
Qed.

Lemma firstn_step (a b : nat) (l : list byte) :
  (a <= b)%nat -> firstn a l ++ firstn (b - a) (skipn a l) = firstn b l.
Proof.
  intros Hab. rewrite <- (firstn_skipn a l) at 3.
  rewrite firstn_app, length_firstn.
  destruct (Nat.le_gt_cases a (List.length l)) as [Hl|Hl].
  - rewrite Nat.min_l by lia.
    rewrite (@firstn_all2 _ b (firstn a l)) by (rewrite length_firstn; lia).
    reflexivity.
  - rewrite (skipn_all2 (n:=a)) by lia. rewrite !firstn_nil, !app_nil_r.
    rewrite firstn_firstn. f_equal. lia.
Qed.

Lemma ReadAll_loop_Limited (rounds : nat) :
  forall (pend : list byte) (fail : option error) (N : Z) (buf : list byte),
    (List.length pend < rounds)%nat ->
    ReadAll_loop rounds (mkLimited (mkSource pend fail) N) buf
    = (mkLimited (mkSource (skipn (Z.to_nat N) pend) fail)
                 (N - len (firstn (Z.to_nat N) pend)),
       buf ++ firstn (Z.to_nat N) pend,
       limited_error pend fail N).
Proof.
  induction rounds as [|n IH]; intros pend fail N buf Hlt; [lia|].
  cbn [ReadAll_loop Read LimitedReader_Reader].
  unfold LimitedReader_Read, limited_error. cbn [lr_N lr_R].
  destruct (N <=? 0) eqn:HN.
  - apply Z.leb_le in HN.
    replace (Z.to_nat N) with O by lia.
    cbn. rewrite app_nil_r, Z.sub_0_r. reflexivity.
  - apply Z.leb_gt in HN.
    set (k' := if Z.of_nat MinRead >? N then Z.to_nat N else MinRead).
    assert (Hk : (1 <= k' <= Z.to_nat N)%nat).
    { unfold k', MinRead. destruct (Z.of_nat 512 >? N) eqn:E; [lia|].
      rewrite Z.gtb_ltb in E. apply Z.ltb_ge in E. lia. }
    destruct pend as [|b pend'].
    + rewrite firstn_nil, skipn_nil.
      change (len (@nil byte)) with 0.
      replace (0 <? N) with true by (symmetry; apply Z.ltb_lt; lia).
      cbn. rewrite app_nil_r, Z.sub_0_r.
      destruct fail as [e|]; reflexivity.
    + cbn [Read Source_Reader Source_Read pending failure].
      assert (Hpos : (1 <= List.length (b :: pend'))%nat) by (cbn; lia).
      set (pend := b :: pend') in *.
      rewrite IH by (rewrite length_skipn; lia).
      assert (Hlenp : len (firstn k' pend) = Z.of_nat (Nat.min k' (List.length pend))).
      { unfold len. rewrite length_firstn. reflexivity. }
      assert (Hfirst : firstn k' pend
                       ++ firstn (Z.to_nat (N - len (firstn k' pend))) (skipn k' pend)
                       = firstn (Z.to_nat N) pend).
      { destruct (Nat.le_gt_cases k' (List.length pend)) as [Hl|Hl].
        - rewrite Hlenp, Nat.min_l by lia.
          replace (Z.to_nat (N - Z.of_nat k')) with (Z.to_nat N - k')%nat by lia.
          apply firstn_step. lia.
        - rewrite (skipn_all2 (n:=k')) by lia. rewrite firstn_nil, app_nil_r.
          rewrite !firstn_all2 by lia. reflexivity. }
      assert (Hskip : skipn (Z.to_nat (N - len (firstn k' pend))) (skipn k' pend)
                      = skipn (Z.to_nat N) pend).
      { destruct (Nat.le_gt_cases k' (List.length pend)) as [Hl|Hl].
        - rewrite Hlenp, Nat.min_l by lia. rewrite skipn_skipn. f_equal. lia.
        - rewrite (skipn_all2 (n:=k')) by lia. rewrite skipn_nil.
          rewrite skipn_all2 by lia. reflexivity. }
      rewrite Hskip, <- app_assoc, Hfirst.
      f_equal; [f_equal; f_equal|].
      * rewrite <- Hfirst. rewrite len_app. lia.
      * unfold limited_error.
        assert (Hs : len (skipn k' pend) = Z.of_nat (List.length pend - k'))
          by (unfold len; rewrite length_skipn; reflexivity).
        assert (Hp : len pend = Z.of_nat (List.length pend)) by reflexivity.
        rewrite Hs, Hlenp, Hp.
        destruct (Nat.le_gt_cases k' (List.length pend)) as [Hl|Hl].
        -- rewrite Nat.min_l by lia.
           destruct (N - Z.of_nat k' <=? 0) eqn:E1;
             destruct (Z.of_nat (List.length pend) <? N) eqn:E2;
             destruct (Z.of_nat (List.length pend - k') <? N - Z.of_nat k') eqn:E3;
             try reflexivity;
             rewrite ?Z.leb_le, ?Z.leb_gt, ?Z.ltb_lt, ?Z.ltb_ge in *; lia.
        -- rewrite Nat.min_r by lia.
           destruct (N - Z.of_nat (List.length pend) <=? 0) eqn:E1;
             destruct (Z.of_nat (List.length pend) <? N) eqn:E2;
             destruct (Z.of_nat (List.length pend - k') <? N - Z.of_nat (List.length pend)) eqn:E3;
             try reflexivity;
             rewrite ?Z.leb_le, ?Z.leb_gt, ?Z.ltb_lt, ?Z.ltb_ge in *; lia.
Qed.

Lemma ReadAll_Limited_Source (s : Source) (N : Z) :
  ioutil_ReadAll (io_LimitReader s N)
  = (mkLimited (mkSource (skipn (Z.to_nat N) (pending s)) (failure s))
               (N - len (firstn (Z.to_nat N) (pending s))),
     firstn (Z.to_nat N) (pending s),
     limited_error (pending s) (failure s) N).
Proof.
  destruct s as [pend fail]. unfold ioutil_ReadAll, io_LimitReader.
  cbn [unread LimitedReader_Reader Source_Reader lr_R pending failure].
  rewrite ReadAll_loop_Limited by lia. reflexivity.
Qed.

(** A section is read as its content is. *)
Lemma ReadAll_loop_Limited_Part (rounds : nat) :
  forall (name : string) (hdr : http_Header) (body : Source) (N : Z) (buf : list byte),
    ReadAll_loop rounds (mkLimited (mkPart name hdr body) N) buf
    = let '(l, d, e) := ReadAll_loop rounds (mkLimited body N) buf in
      (mkLimited (mkPart name hdr (lr_R l)) (lr_N l), d, e).
Proof.
  induction rounds as [|n IH]; intros name hdr body N buf; [reflexivity|].
  cbn [ReadAll_loop Read LimitedReader_Reader].
  unfold LimitedReader_Read. cbn [lr_N lr_R].
  destruct (N <=? 0); [reflexivity|].
  cbn [Read Part_Reader Source_Reader part_Body part_FileName part_Header].
  destruct (Source_Read body _) as [[b' p] err].
  destruct err as [e|]; [reflexivity|].
  apply IH.
Qed.

Lemma ReadAll_Limited_Part (part : Part) (N : Z) :
  exists l,
    ioutil_ReadAll (io_LimitReader part N)
    = (l, firstn (Z.to_nat N) (pending (part_Body part)),
       limited_error (pending (part_Body part)) (failure (part_Body part)) N).
Proof.
  destruct part as [name hdr [pend fail]].
  unfold ioutil_ReadAll, io_LimitReader.
  cbn [unread LimitedReader_Reader Part_Reader lr_R part_Body pending failure].
  rewrite ReadAll_loop_Limited_Part, ReadAll_loop_Limited by lia.
  eexists. reflexivity.
Qed.

(** Reading through a [ChecksumReader] returns what the wrapped reader
    returns, and the hash has been fed exactly the bytes returned. *)
Lemma ReadAll_loop_Checksum {T} `{io_Reader T} (rounds : nat) :
  forall (r : T) (h0 buf : list byte),
    ReadAll_loop rounds (mkChecksumReader (mkHash (h0 ++ buf)) r) buf
    = let '(r', d, e) := ReadAll_loop rounds r buf in
      (mkChecksumReader (mkHash (h0 ++ d)) r', d, e).
Proof.
  induction rounds as [|n IH]; intros r h0 buf; [reflexivity|].
  cbn [ReadAll_loop Read ChecksumReader_Reader].
  unfold ChecksumReader_Read. cbn [cr_r cr_h].
  destruct (Read r MinRead) as [[r' p] err].
  unfold Hash_Write. cbn [written].
  rewrite <- app_assoc.
  destruct err as [e|]; [reflexivity|].
  apply IH.
Qed.

Lemma ReadAll_Checksum {T} `{io_Reader T} (r : T) :
  ioutil_ReadAll (mkChecksumReader (mkHash []) r)
  = let '(r', d, e) := ioutil_ReadAll r in
    (mkChecksumReader (mkHash d) r', d, e).
Proof.
  unfold ioutil_ReadAll. cbn [unread ChecksumReader_Reader cr_r].
  apply (ReadAll_loop_Checksum (S (unread r)) r [] []).
Qed.

(** [ReadAll] never reports [io.EOF]. *)
Lemma limited_error_not_EOF (pend : list byte) (fail : option error) (N : Z) :
  err_is_EOF (limited_error pend fail N) = false.
Proof.
  unfold limited_error.
  destruct (N <=? 0); [reflexivity|].
  destruct (len pend <? N); [apply reported_not_EOF|reflexivity].
Qed.

Section Claims.

Context {TTL : Type} `{Externals TTL}.

(** ** [parsePut] *)

(** What [parsePut] comes to, once the reads are carried out. *)
Lemma parsePut_eq (r : Request) (sizeLimit : Z) (pu : ParsedUpload TTL) :
  parsePut r sizeLimit pu
  = (mkRequest (Method r) (Header r) (FormValue r)
       (if OriginalDataSize pu =? add64 sizeLimit 1
        then mkSource [] (failure (Body r))
        else mkSource (skipn (Z.to_nat (add64 sizeLimit 1)) (pending (Body r)))
                      (failure (Body r)))
       true (MultipartReader r),
     mkParsedUpload "" (capped sizeLimit (pending (Body r)))
       (Header_Get (Header r) "Content-Type") (PairMap pu)
       (Header_Get (Header r) "Content-Encoding" =? "gzip")%string
       (OriginalDataSize pu) (ModifiedTime pu) (Ttl pu) (IsChunkedFile pu)
       (UncompressedData pu),
     None).
Proof.
  unfold parsePut. rewrite ReadAll_Limited_Source.
  cbn [lr_R]. rewrite limited_error_not_EOF. cbn [orb].
  unfold set_Data, set_FileName, set_MimeType, set_IsGzipped, set_Body, Body_Close.
  cbn [FileName Data MimeType PairMap IsGzipped OriginalDataSize ModifiedTime Ttl
       IsChunkedFile UncompressedData Method Header FormValue Body BodyClosed
       MultipartReader].
  destruct (OriginalDataSize pu =? add64 sizeLimit 1).
  - unfold io_Copy_Discard. cbn [Method Header FormValue Body BodyClosed MultipartReader].
    rewrite ReadAll_Source. reflexivity.
  - reflexivity.
Qed.

Lemma ParseUpload_eq (r : Request) (sizeLimit : Z) :
  ParseUpload r sizeLimit
  = let '(r', pu, e) := acquire r sizeLimit in
    match e with
    | Some _ => (r', pu, e)
    | None => (r', finalize r' pu, None)
    end.
Proof. reflexivity. Qed.

Lemma not_POST (r : Request) : Method r <> "POST" -> (Method r =? "POST")%string = false.
Proof. intros Hm. apply String.eqb_neq. exact Hm. Qed.


(** ** The second stage *)

Lemma detectMimeType_frame (pu : ParsedUpload TTL) :
  FileName (detectMimeType pu) = FileName pu
  /\ Data (detectMimeType pu) = Data pu
  /\ IsGzipped (detectMimeType pu) = IsGzipped pu
  /\ UncompressedData (detectMimeType pu) = UncompressedData pu
  /\ OriginalDataSize (detectMimeType pu) = OriginalDataSize pu.
Proof.
  unfold detectMimeType.
  destruct (MimeType pu =? "")%string; [|repeat split].
  destruct (MimeType (set_MimeType pu _) =? "application/octet-stream")%string;
    repeat split.
Qed.

Lemma negotiateCompression_FileName (pu : ParsedUpload TTL) :
  FileName (negotiateCompression pu) = FileName pu.
Proof.
  unfold negotiateCompression.
  destruct (IsGzipped pu).
  - destruct (util_DecompressData (Data pu)) as [u [e|]]; reflexivity.
  - destruct (util_IsGzippableFileType _ _) as [shouldGzip iAmSure].
    destruct ((MimeType pu =? "")%string && negb iAmSure || shouldGzip && iAmSure);
      [|reflexivity].
    destruct (util_GzipData (Data pu)) as [c [e|]]; [reflexivity|].
    destruct (len c * 10 <? len (Data pu) * 9); reflexivity.
Qed.

(** Every record leaves the negotiation in one of the four ways, provided
    it enters with [UncompressedData] and [OriginalDataSize] set from
    [Data], as lines 55-56 set them. *)
Lemma negotiateCompression_cases (pu : ParsedUpload TTL) :
  UncompressedData pu = Data pu ->
  OriginalDataSize pu = len (Data pu) ->
  Negotiated pu (negotiateCompression pu).
Proof.
  intros HU HO. unfold negotiateCompression.
  destruct (IsGzipped pu) eqn:HG.
  - destruct (util_DecompressData (Data pu)) as [u [e|]] eqn:HD.
    + eapply Declared_undecoded; eauto.
    + eapply Declared_decoded; eauto.
  - destruct (util_IsGzippableFileType _ _) as [shouldGzip iAmSure].
    destruct ((MimeType pu =? "")%string && negb iAmSure || shouldGzip && iAmSure).
    + destruct (util_GzipData (Data pu)) as [c [e|]] eqn:HZ.
      * apply Left_plain; auto.
      * destruct (len c * 10 <? len (Data pu) * 9) eqn:HL.
        -- apply Z.ltb_lt in HL. apply Freshly_compressed; auto.
        -- apply Left_plain; auto.
    + apply Left_plain; auto.
Qed.

Lemma finalize_cases (r : Request) (pu0 : ParsedUpload TTL) :
  Negotiated pu0 (finalize r pu0) /\ FileName (finalize r pu0) = FileName pu0.
Proof.
  unfold finalize.
  set (pu1 := set_UncompressedData _ _).
  destruct (detectMimeType_frame pu1) as (HF & HD & HG & HU & HO).
  assert (H1 : Negotiated (detectMimeType pu1) (negotiateCompression (detectMimeType pu1))).
  { apply negotiateCompression_cases.
    - rewrite HU, HD. reflexivity.
    - rewrite HO, HD. reflexivity. }
  split.
  - change (Data pu1) with (Data pu0) in HD.
    change (IsGzipped pu1) with (IsGzipped pu0) in HG.
    destruct H1 as [u A1 A2 A3 A4 A5 A6|j e A1 A2 A3 A4 A5 A6|A1 A2 A3 A4 A5 A6|A1 A2 A3 A4 A5];
      rewrite ?HD, ?HG in *.
    + eapply Declared_decoded; eauto.
    + eapply Declared_undecoded; eauto.
    + apply Freshly_compressed; auto.
    + apply Left_plain; auto.
  - rewrite negotiateCompression_FileName, HF. reflexivity.
Qed.

(** A successful [ParseUpload] is a successful acquisition followed by the
    second stage. *)
Lemma ParseUpload_success (r r' : Request) (sizeLimit : Z) (pu : ParsedUpload TTL) :
  ParseUpload r sizeLimit = (r', pu, None) ->
  exists pu0, acquire r sizeLimit = (r', pu0, None) /\ pu = finalize r' pu0.
Proof.
  rewrite ParseUpload_eq.
  destruct (acquire r sizeLimit) as [[r1 pu0] [e|]]; intros Heq.
  - discriminate.
  - injection Heq as -> <-. exists pu0. split; reflexivity.
Qed.


(** ** The record returned on success *)

(** C8. On every request on which [ParseUpload] succeeds, the record has
    [OriginalDataSize == len(UncompressedData)]; the record left the
    negotiation in one of its four branches (declared and decoded,
    declared and not decodable, freshly compressed, left as it was), and
    the equality holds in each. *)
Theorem ParseUpload_OriginalDataSize (r r' : Request) (sizeLimit : Z) (pu : ParsedUpload TTL) :
  ParseUpload r sizeLimit = (r', pu, None) ->
  OriginalDataSize pu = len (UncompressedData pu)
  /\ exists pu0, acquire r sizeLimit = (r', pu0, None) /\ Negotiated pu0 pu.
Proof.
  intros Hok.
  destruct (ParseUpload_success _ _ _ _ Hok) as (pu0 & Hacq & ->).
  destruct (finalize_cases r' pu0) as [Hn _].
  split.
  - destruct Hn as [u _ _ _ _ HU HO|j e _ _ _ _ HU HO|_ _ _ _ HU HO|_ _ _ HU HO];
      rewrite HO, HU; reflexivity.
  - exists pu0. split; assumption.
Qed.

(** C3, as the code has it.  On success with [IsGzipped == true]:
    [OriginalDataSize == len(UncompressedData)]; if [Data] decodes, it
    decodes to exactly [UncompressedData]; if it does not (the request
    declared gzip over a body that is none), the record is returned all
    the same, with [UncompressedData == Data].  The compression helpers
    are taken to be lossless. *)
Theorem ParseUpload_gzip_roundtrip (r r' : Request) (sizeLimit : Z) (pu : ParsedUpload TTL) :
  lossless ->
  ParseUpload r sizeLimit = (r', pu, None) ->
  IsGzipped pu = true ->
  OriginalDataSize pu = len (UncompressedData pu)
  /\ (forall u, util_DecompressData (Data pu) = (u, None) -> u = UncompressedData pu)
  /\ (forall junk e, util_DecompressData (Data pu) = (junk, Some e) ->
                     UncompressedData pu = Data pu).
Proof.
  intros Hll Hok Hgz.
  destruct (ParseUpload_success _ _ _ _ Hok) as (pu0 & Hacq & ->).
  destruct (finalize_cases r' pu0) as [Hn _].
  destruct Hn as [u _ HD _ HData HU HO|j e _ HD _ HData HU HO|_ HZ _ _ HU HO|_ HG _ _ _].
  - rewrite HData, HD, HU, HO. repeat split.
    + intros u' E. congruence.
    + intros j e E. discriminate.
  - rewrite HData, HD, HU, HO. repeat split.
    + intros u' E. discriminate.
  - apply Hll in HZ. rewrite HZ, HU, HO. repeat split.
    + intros u' E. congruence.
    + intros j e E. discriminate.
  - congruence.
Qed.

(** C4, as the code has it.  On a successful single-body request
    [FileName == ""], and [IsGzipped] is true if and only if the
    Content-Encoding header equals "gzip" or the negotiation kept a
    freshly compressed payload ([Data] is the compressed form of
    [UncompressedData] and is below nine tenths of its size). *)
Theorem ParseUpload_put_FileName_IsGzipped
    (r r' : Request) (sizeLimit : Z) (pu : ParsedUpload TTL) :
  Method r <> "POST" ->
  ParseUpload r sizeLimit = (r', pu, None) ->
  FileName pu = ""
  /\ (IsGzipped pu = true <->
      Header_Get (Header r) "Content-Encoding" = "gzip"
      \/ (util_GzipData (UncompressedData pu) = (Data pu, None)
          /\ len (Data pu) * 10 < len (UncompressedData pu) * 9)).
Proof.
  intros Hm Hok.
  destruct (ParseUpload_success _ _ _ _ Hok) as (pu0 & Hacq & ->).
  unfold acquire in Hacq. rewrite (not_POST _ Hm), parsePut_eq in Hacq.
  injection Hacq as Hr Hpu0.
  destruct (finalize_cases r' pu0) as [Hn HF].
  assert (HG0 : IsGzipped pu0 = (Header_Get (Header r) "Content-Encoding" =? "gzip")%string)
    by (rewrite <- Hpu0; reflexivity).
  split.
  - rewrite HF, <- Hpu0. reflexivity.
  - destruct Hn as [u G0 _ G _ _ _|j e G0 _ G _ _ _|G0 HZ HL G HU _|G0 G HData HU _].
    + rewrite G. split; [intros _; left|reflexivity].
      apply String.eqb_eq. congruence.
    + rewrite G. split; [intros _; left|reflexivity].
      apply String.eqb_eq. congruence.
    + rewrite G, HU. split; [intros _; right; split; assumption|reflexivity].
    + rewrite G, HU, HData. split; [discriminate|].
      intros [E|[_ E]].
      * apply String.eqb_eq in E. congruence.
      * pose proof (len_nonneg (Data pu0)). lia.
Qed.

(** Lines 75-79, once compression is attempted and [GzipData] succeeds. *)
Lemma negotiateCompression_attempted (pu : ParsedUpload TTL) (c : list byte) :
  IsGzipped pu = false ->
  compressionAttempted pu = true ->
  util_GzipData (Data pu) = (c, None) ->
  negotiateCompression pu
  = if len c * 10 <? len (Data pu) * 9
    then set_IsGzipped (set_Data pu c) true
    else pu.
Proof.
  intros HG Hat HZ. unfold negotiateCompression, compressionAttempted in *.
  rewrite HG.
  destruct (util_IsGzippableFileType _ _) as [shouldGzip iAmSure].
  rewrite Hat, HZ. reflexivity.
Qed.

(** At exactly nine tenths the compressed form is dropped, whatever the
    compression helper. *)
Lemma negotiateCompression_at_nine_tenths (pu : ParsedUpload TTL) (c : list byte) :
  IsGzipped pu = false ->
  compressionAttempted pu = true ->
  util_GzipData (Data pu) = (c, None) ->
  len c * 10 = len (Data pu) * 9 ->
  negotiateCompression pu = pu.
Proof.
  intros HG Hat HZ Heq.
  rewrite (negotiateCompression_attempted pu c HG Hat HZ).
  replace (len c * 10 <? len (Data pu) * 9) with false
    by (symmetry; apply Z.ltb_ge; lia).
  reflexivity.
Qed.

(** C5, as the code has it.  When compression is attempted on a record not
    marked compressed and [GzipData] succeeds with [c], the record ends
    with [IsGzipped] true if and only if [len(c)*10 < len(Data)*9], that
    is, [c] strictly below nine tenths of the original; then [Data] is
    [c], and otherwise [Data] is the original and [IsGzipped] stays
    false. *)
Theorem negotiateCompression_keeps_iff (pu : ParsedUpload TTL) (c : list byte) :
  IsGzipped pu = false ->
  compressionAttempted pu = true ->
  util_GzipData (Data pu) = (c, None) ->
  (IsGzipped (negotiateCompression pu) = true <-> len c * 10 < len (Data pu) * 9)
  /\ (len c * 10 < len (Data pu) * 9 -> Data (negotiateCompression pu) = c)
  /\ (len (Data pu) * 9 <= len c * 10 ->
      Data (negotiateCompression pu) = Data pu
      /\ IsGzipped (negotiateCompression pu) = false).
Proof.
  intros HG Hat HZ.
  rewrite (negotiateCompression_attempted pu c HG Hat HZ).
  destruct (len c * 10 <? len (Data pu) * 9) eqn:HL.
  - apply Z.ltb_lt in HL. cbn. repeat split; auto; lia.
  - apply Z.ltb_ge in HL. rewrite HG. repeat split; auto; try lia; discriminate.
Qed.

(** ** The single-body variant and its body *)

(** [parsePut] ends in [return nil]: the single-body variant reports no
    error, whatever was read. *)
Lemma ParseUpload_put_no_error (r : Request) (sizeLimit : Z) :
  Method r <> "POST" -> snd (ParseUpload r sizeLimit) = None.
Proof.
  intros Hm. rewrite ParseUpload_eq. unfold acquire.
  rewrite (not_POST _ Hm), parsePut_eq. reflexivity.
Qed.

(** C2, which the code does not meet.  On a single-body request whose body
    breaks off with an I/O error before the cap, [ReadAll] reports the
    error and [ParseUpload] returns none: the record is handed out as a
    successful parse. *)
Theorem ParseUpload_put_read_error_dropped (r : Request) (sizeLimit : Z) (msg : string) :
  Method r <> "POST" ->
  failure (Body r) = Some (NewError msg) ->
  len (pending (Body r)) < add64 sizeLimit 1 ->
  snd (ioutil_ReadAll (io_LimitReader (Body r) (add64 sizeLimit 1))) = Some (NewError msg)
  /\ snd (ParseUpload r sizeLimit) = None.
Proof.
  intros Hm Hf Hlen. split.
  - rewrite ReadAll_Limited_Source. cbn [snd]. unfold limited_error.
    pose proof (len_nonneg (pending (Body r))).
    replace (add64 sizeLimit 1 <=? 0) with false by (symmetry; apply Z.leb_gt; lia).
    replace (len (pending (Body r)) <? add64 sizeLimit 1) with true
      by (symmetry; apply Z.ltb_lt; lia).
    rewrite Hf. reflexivity.
  - apply ParseUpload_put_no_error. exact Hm.
Qed.

(** C9, which the code does not meet.  On a single-body request whose body
    holds more than [sizeLimit + 1] bytes ([sizeLimit] not negative), the
    body is closed with everything behind the cap still unread: the test
    of line 92 reads [pu.OriginalDataSize], which is 0 until line 55, and
    [ReadAll] never returns [io.EOF], so [io.Copy] is not reached. *)
Theorem ParseUpload_put_remainder_unread (r : Request) (sizeLimit : Z) :
  Method r <> "POST" ->
  0 <= sizeLimit < 2 ^ 63 - 1 ->
  sizeLimit + 1 < len (pending (Body r)) ->
  let r' := fst (fst (ParseUpload r sizeLimit)) in
  BodyClosed r' = true
  /\ pending (Body r') = skipn (Z.to_nat (sizeLimit + 1)) (pending (Body r))
  /\ pending (Body r') <> [].
Proof.
  intros Hm Hrange Hlen r'. subst r'.
  rewrite ParseUpload_eq. unfold acquire.
  rewrite (not_POST _ Hm), parsePut_eq.
  cbn [fst OriginalDataSize newParsedUpload].
  rewrite add64_succ by lia.
  replace (0 =? sizeLimit + 1) with false by (symmetry; apply Z.eqb_neq; lia).
  cbn [BodyClosed Body pending]. repeat split.
  intros E. apply (f_equal (@List.length byte)) in E.
  rewrite length_skipn in E. unfold len in Hlen. cbn in E. lia.
Qed.


(** ** [parseMultipart] *)

Lemma readChecked_eq {T} `{io_Reader T} (expected : string) (reader : T) (pu : ParsedUpload TTL) :
  readChecked expected reader pu
  = let '(_, d, e) := ioutil_ReadAll reader in
    (set_Data pu d,
     if (expected =? fmt_x (md5_Sum d))%string
     then e
     else Some (errChecksum expected (fmt_x (md5_Sum d)))).
Proof.
  unfold readChecked, md5_New. rewrite ReadAll_Checksum.
  destruct (ioutil_ReadAll reader) as [[r' d] e].
  unfold Checksum. cbn [cr_h written].
  destruct (expected =? fmt_x (md5_Sum d))%string; reflexivity.
Qed.

(** The payload of the first section: either the decoder refuses the
    stream, or the bytes are stored and the error is that of the read,
    unless the digest disagrees. *)
Lemma readFirstPart_spec (r : Request) (sizeLimit : Z) (part : Part) (pu : ParsedUpload TTL) :
  match acquiredFirst r sizeLimit part with
  | None => exists err, readFirstPart r sizeLimit part pu = (pu, Some (errNotGzipped err))
  | Some (bytes, e) =>
      readFirstPart r sizeLimit part pu
      = (set_Data pu bytes,
         if checksumAgrees r bytes then e
         else Some (errChecksum (Header_Get (Header r) "Content-MD5")
                                (fmt_x (md5_Sum bytes))))
  end.
Proof.
  unfold acquiredFirst, readFirstPart, checksumAgrees, consumedStream.
  destruct (ReadAll_Limited_Part part (add64 sizeLimit 1)) as [l Hl].
  destruct (Header_Get (Header r) "Content-MD5" =? "")%string eqn:Hexp; cbn [negb orb].
  - rewrite Hl. reflexivity.
  - destruct (Header_Get (Header r) "Content-Encoding" =? "gzip")%string.
    + unfold gzip_NewReader. rewrite Hl. unfold capped.
      destruct (gzip_decode _ _) as [gr|err].
      * rewrite readChecked_eq, ReadAll_Source. reflexivity.
      * exists err. reflexivity.
    + rewrite readChecked_eq, Hl. reflexivity.
Qed.

Lemma scanParts_unnamed (sizeLimit : Z) (before ps : list Part) (pu : ParsedUpload TTL) :
  Forall unnamed before ->
  scanParts sizeLimit (before ++ ps) pu = scanParts sizeLimit ps pu.
Proof.
  induction 1 as [|p before Hp _ IH]; [reflexivity|].
  cbn [app scanParts]. unfold unnamed in Hp. rewrite Hp. cbn. exact IH.
Qed.

Lemma scanParts_named (sizeLimit : Z) (chosen : Part) (after : list Part) (pu : ParsedUpload TTL) :
  part_FileName chosen <> "" ->
  scanParts sizeLimit (chosen :: after) pu
  = match limited_error (pending (part_Body chosen)) (failure (part_Body chosen))
                        (add64 sizeLimit 1) with
    | Some e => (after, pu, Some e)
    | None =>
        if len (capped sizeLimit (pending (part_Body chosen))) =? add64 sizeLimit 1
        then (after, pu, Some (errOverLimit sizeLimit))
        else (after,
              set_FileName (set_Data pu (capped sizeLimit (pending (part_Body chosen))))
                           (path_Base (part_FileName chosen)),
              None)
    end.
Proof.
  intros Hn. cbn [scanParts].
  apply String.eqb_neq in Hn. rewrite Hn. cbn [negb].
  destruct (ReadAll_Limited_Part chosen (add64 sizeLimit 1)) as [l Hl].
  rewrite Hl. unfold capped.
  destruct (limited_error _ _ _); reflexivity.
Qed.

(** A scan that ends without error leaves a payload within the limit, if
    it found one within the limit. *)
Lemma scanParts_within (sizeLimit : Z) (ps : list Part) :
  forall (pu pu' : ParsedUpload TTL) (rest : list Part),
    scanParts sizeLimit ps pu = (rest, pu', None) ->
    len (Data pu) <> add64 sizeLimit 1 ->
    len (Data pu') <> add64 sizeLimit 1.
Proof.
  induction ps as [|p ps IH]; intros pu pu' rest Hs Hpu.
  - cbn in Hs. injection Hs as _ <-. exact Hpu.
  - destruct (String.eqb_spec (part_FileName p) "") as [E|E].
    + cbn [scanParts] in Hs. rewrite E in Hs. cbn in Hs. eapply IH; eauto.
    + rewrite scanParts_named in Hs by exact E.
      destruct (limited_error _ _ _); [discriminate|].
      destruct (len (capped sizeLimit (pending (part_Body p))) =? add64 sizeLimit 1) eqn:EL;
        [discriminate|].
      injection Hs as _ <-. cbn. apply Z.eqb_neq. exact EL.
Qed.

Lemma finishMultipart_frame (r : Request) (part : Part) (pu : ParsedUpload TTL) :
  FileName (finishMultipart r part pu) = FileName pu
  /\ Data (finishMultipart r part pu) = Data pu.
Proof.
  unfold finishMultipart.
  destruct (negb (IsChunkedFile (set_IsChunkedFile pu _))); [|split; reflexivity].
  match goal with |- context [if ?c then set_MimeType _ _ else _] => destruct c end;
    split; reflexivity.
Qed.

Lemma parseMultipart_body_eq (r : Request) (sizeLimit : Z) (pu : ParsedUpload TTL)
    (form : multipart_Reader) (part : Part) (rest : list Part) :
  MultipartReader r = inl form ->
  sections form = part :: rest ->
  parseMultipart_body r sizeLimit pu
  = let r1 := set_MultipartReader r (mkForm rest (ending form)) in
    let '(pu1, e) := readFirstPart r1 sizeLimit part (namedAfter part pu) in
    match e with
    | Some _ => (r1, pu1, e)
    | None =>
        if len (Data pu1) =? add64 sizeLimit 1
        then (r1, pu1, Some (errOverLimit sizeLimit))
        else
          let '(rest', pu2, e) :=
            if (FileName pu1 =? "")%string
            then scanParts sizeLimit rest pu1
            else (rest, pu1, None) in
          let r2 := set_MultipartReader r1 (mkForm rest' (ending form)) in
          match e with
          | Some _ => (r2, pu2, e)
          | None => (r2, finishMultipart r2 part pu2, None)
          end
    end.
Proof.
  intros Hmr Hsec. unfold parseMultipart_body, NextPart, namedAfter.
  rewrite Hmr, Hsec. reflexivity.
Qed.

Lemma parseMultipart_success (r r' : Request) (sizeLimit : Z) (pu pu' : ParsedUpload TTL) :
  parseMultipart r sizeLimit pu = (r', pu', None) ->
  parseMultipart_body r sizeLimit pu = (r', pu', None).
Proof.
  unfold parseMultipart.
  destruct (parseMultipart_body r sizeLimit pu) as [[r1 pu1] [e|]]; intros E.
  - discriminate.
  - exact E.
Qed.

Lemma parseMultipart_error (r : Request) (sizeLimit : Z) (pu : ParsedUpload TTL) :
  snd (parseMultipart r sizeLimit pu) = snd (parseMultipart_body r sizeLimit pu).
Proof.
  unfold parseMultipart.
  destruct (parseMultipart_body r sizeLimit pu) as [[r1 pu1] [e|]]; reflexivity.
Qed.

Lemma ParseUpload_POST_error (r : Request) (sizeLimit : Z) (e : error) :
  Method r = "POST" ->
  snd (parseMultipart_body r sizeLimit (newParsedUpload r)) = Some e ->
  snd (ParseUpload r sizeLimit) = Some e.
Proof.
  intros Hm He. rewrite ParseUpload_eq. unfold acquire.
  rewrite Hm. cbn [String.eqb Ascii.eqb Bool.eqb andb].
  rewrite <- parseMultipart_error in He.
  destruct (parseMultipart r sizeLimit (newParsedUpload r)) as [[r1 pu1] e1].
  cbn in He. subst e1. reflexivity.
Qed.


Lemma readFirstPart_FileName (r : Request) (sizeLimit : Z) (part : Part)
    (pu pu1 : ParsedUpload TTL) (e : option error) :
  readFirstPart r sizeLimit part pu = (pu1, e) -> FileName pu1 = FileName pu.
Proof.
  intros E. pose proof (readFirstPart_spec r sizeLimit part pu) as S.
  destruct (acquiredFirst r sizeLimit part) as [[bytes e']|].
  - rewrite S in E. injection E as <- _. reflexivity.
  - destruct S as [err S]. rewrite S in E. injection E as <- _. reflexivity.
Qed.

(** No successful acquisition leaves a payload of [sizeLimit + 1] bytes. *)
Lemma parseMultipart_body_within (r r' : Request) (sizeLimit : Z) (pu pu' : ParsedUpload TTL) :
  parseMultipart_body r sizeLimit pu = (r', pu', None) ->
  len (Data pu') <> add64 sizeLimit 1.
Proof.
  destruct (MultipartReader r) as [form|fe] eqn:Hmr.
  2:{ unfold parseMultipart_body. rewrite Hmr. discriminate. }
  destruct (sections form) as [|part rest] eqn:Hsec.
  { unfold parseMultipart_body, NextPart. rewrite Hmr, Hsec. discriminate. }
  rewrite (parseMultipart_body_eq _ _ _ _ _ _ Hmr Hsec). cbn zeta.
  destruct (readFirstPart _ sizeLimit part _) as [pu1 [e|]]; [discriminate|].
  destruct (len (Data pu1) =? add64 sizeLimit 1) eqn:EL; [discriminate|].
  apply Z.eqb_neq in EL.
  destruct (FileName pu1 =? "")%string.
  - destruct (scanParts sizeLimit rest pu1) as [[rest' pu2] [e|]] eqn:Hs; [discriminate|].
    intros E. injection E as _ <-.
    rewrite (proj2 (finishMultipart_frame _ _ _)).
    eapply scanParts_within; eauto.
  - intros E. injection E as _ <-.
    rewrite (proj2 (finishMultipart_frame _ _ _)). exact EL.
Qed.

(** The scan, when the first section has no name and was read within the
    limit: the unnamed sections are passed over and the first named one
    decides. *)
Lemma parseMultipart_body_scan (r : Request) (sizeLimit : Z) (pu pu1 : ParsedUpload TTL)
    (form : multipart_Reader) (part chosen : Part) (before after : list Part) :
  MultipartReader r = inl form ->
  sections form = part :: before ++ chosen :: after ->
  unnamed part ->
  Forall unnamed before ->
  part_FileName chosen <> "" ->
  readFirstPart r sizeLimit part (namedAfter part pu) = (pu1, None) ->
  len (Data pu1) <> add64 sizeLimit 1 ->
  let r2 := mkRequest (Method r) (Header r) (FormValue r) (Body r) (BodyClosed r)
                      (inl (mkForm after (ending form))) in
  parseMultipart_body r sizeLimit pu
  = match limited_error (pending (part_Body chosen)) (failure (part_Body chosen))
                        (add64 sizeLimit 1) with
    | Some e => (r2, pu1, Some e)
    | None =>
        if len (capped sizeLimit (pending (part_Body chosen))) =? add64 sizeLimit 1
        then (r2, pu1, Some (errOverLimit sizeLimit))
        else (r2,
              finishMultipart r2 part
                (set_FileName (set_Data pu1 (capped sizeLimit (pending (part_Body chosen))))
                              (path_Base (part_FileName chosen))),
              None)
    end.
Proof.
  intros Hmr Hsec Hun Hbefore Hnamed Hfirst Hlen r2.
  rewrite (parseMultipart_body_eq _ _ _ _ _ _ Hmr Hsec). cbn zeta.
  assert (Hrd : readFirstPart (set_MultipartReader r (mkForm (before ++ chosen :: after) (ending form)))
                              sizeLimit part (namedAfter part pu) = (pu1, None))
    by exact Hfirst.
  rewrite Hrd.
  apply Z.eqb_neq in Hlen. rewrite Hlen.
  assert (HF : FileName pu1 = "").
  { rewrite (readFirstPart_FileName _ _ _ _ _ _ Hfirst).
    unfold namedAfter, unnamed in *. cbn. rewrite Hun. reflexivity. }
  rewrite HF. cbn [String.eqb].
  rewrite scanParts_unnamed by exact Hbefore.
  rewrite scanParts_named by exact Hnamed.
  destruct (limited_error _ _ _); [reflexivity|].
  destruct (len (capped sizeLimit (pending (part_Body chosen))) =? add64 sizeLimit 1);
    reflexivity.
Qed.

(** ** The multipart variant *)

(** C7.  On a multipart request with an expected checksum, once the first
    section is being read (the envelope opened, and the gzip header
    accepted if gzip is declared): if the digest of the bytes read differs
    from the expected text, [ParseUpload] fails with the mismatch error,
    which carries both texts.  This is so whether or not the read itself
    ended in an error. *)
Theorem ParseUpload_checksum_mismatch (r : Request) (sizeLimit : Z)
    (form : multipart_Reader) (part : Part) (rest : list Part)
    (bytes : list byte) (e : option error) :
  Method r = "POST" ->
  MultipartReader r = inl form ->
  sections form = part :: rest ->
  Header_Get (Header r) "Content-MD5" <> "" ->
  consumedStream r sizeLimit part = Some (bytes, e) ->
  fmt_x (md5_Sum bytes) <> Header_Get (Header r) "Content-MD5" ->
  snd (ParseUpload r sizeLimit)
  = Some (NewError ("Content-MD5 did not match md5 of file data ["
                    ++ Header_Get (Header r) "Content-MD5" ++ "] != ["
                    ++ fmt_x (md5_Sum bytes) ++ "]")%string).
Proof.
  intros Hm Hmr Hsec Hexp Hcs Hne.
  apply ParseUpload_POST_error; [exact Hm|].
  rewrite (parseMultipart_body_eq _ _ _ _ _ _ Hmr Hsec). cbn zeta.
  pose proof (readFirstPart_spec
                (set_MultipartReader r (mkForm rest (ending form)))
                sizeLimit part (namedAfter part (newParsedUpload r))) as S.
  unfold acquiredFirst, checksumAgrees in S. cbn [Header set_MultipartReader] in S.
  apply String.eqb_neq in Hexp. rewrite Hexp in S.
  change (consumedStream (set_MultipartReader r (mkForm rest (ending form))) sizeLimit part)
    with (consumedStream r sizeLimit part) in S.
  rewrite Hcs in S. cbn [orb] in S.
  assert (Hd : (Header_Get (Header r) "Content-MD5" =? fmt_x (md5_Sum bytes))%string = false)
    by (apply String.eqb_neq; congruence).
  rewrite Hd in S. rewrite S. reflexivity.
Qed.


Lemma acquire_POST (r : Request) (sizeLimit : Z) :
  Method r = "POST" ->
  acquire r sizeLimit = parseMultipart r sizeLimit (newParsedUpload r).
Proof. intros Hm. unfold acquire. rewrite Hm. reflexivity. Qed.

(** A successful scan, taken apart. *)
Lemma parseMultipart_scan_success (r r' : Request) (sizeLimit : Z) (pu pu' : ParsedUpload TTL)
    (form : multipart_Reader) (part chosen : Part) (before after : list Part) :
  MultipartReader r = inl form ->
  sections form = part :: before ++ chosen :: after ->
  unnamed part ->
  Forall unnamed before ->
  part_FileName chosen <> "" ->
  parseMultipart r sizeLimit pu = (r', pu', None) ->
  exists pu1,
    readFirstPart r sizeLimit part (namedAfter part pu) = (pu1, None)
    /\ len (Data pu1) <> add64 sizeLimit 1
    /\ limited_error (pending (part_Body chosen)) (failure (part_Body chosen))
                     (add64 sizeLimit 1) = None
    /\ len (capped sizeLimit (pending (part_Body chosen))) <> add64 sizeLimit 1
    /\ FileName pu' = path_Base (part_FileName chosen)
    /\ Data pu' = capped sizeLimit (pending (part_Body chosen))
    /\ MultipartReader r' = inl (mkForm after (ending form)).
Proof.
  intros Hmr Hsec Hun Hbefore Hnamed Hok.
  apply parseMultipart_success in Hok.
  destruct (readFirstPart r sizeLimit part (namedAfter part pu)) as [pu1 e1] eqn:Hfirst.
  pose proof Hok as Hok'.
  rewrite (parseMultipart_body_eq _ _ _ _ _ _ Hmr Hsec) in Hok'. cbn zeta in Hok'.
  change (readFirstPart (set_MultipartReader r _) sizeLimit part (namedAfter part pu))
    with (readFirstPart r sizeLimit part (namedAfter part pu)) in Hok'.
  rewrite Hfirst in Hok'.
  destruct e1 as [e1|]; [discriminate|].
  destruct (len (Data pu1) =? add64 sizeLimit 1) eqn:EL; [discriminate|].
  apply Z.eqb_neq in EL. clear Hok'.
  rewrite (parseMultipart_body_scan _ _ _ _ _ _ _ _ _ Hmr Hsec Hun Hbefore Hnamed Hfirst EL) in Hok.
  destruct (limited_error _ _ _) as [e|]; [discriminate|].
  destruct (len (capped sizeLimit (pending (part_Body chosen))) =? add64 sizeLimit 1) eqn:EC;
    [discriminate|].
  apply Z.eqb_neq in EC.
  injection Hok as <- <-.
  exists pu1. repeat split; auto.
  - rewrite (proj1 (finishMultipart_frame _ _ _)). reflexivity.
  - rewrite (proj2 (finishMultipart_frame _ _ _)). reflexivity.
Qed.

(** C6.  On a multipart request whose first section has no file name and
    in which a later section has one, a successful [ParseUpload] returns
    the base name of the first such section as [FileName]; [Data] is that
    section's content, capped at [sizeLimit + 1] bytes (as acquired, and in
    the record either as it is or in the compressed form the negotiation
    makes of it); the unnamed sections before it leave no trace; and the
    sections after it are still in the reader, none of them requested. *)
Theorem ParseUpload_later_named_section (r r' : Request) (sizeLimit : Z) (pu : ParsedUpload TTL)
    (form : multipart_Reader) (part chosen : Part) (before after : list Part) :
  Method r = "POST" ->
  MultipartReader r = inl form ->
  sections form = part :: before ++ chosen :: after ->
  unnamed part ->
  Forall unnamed before ->
  part_FileName chosen <> "" ->
  ParseUpload r sizeLimit = (r', pu, None) ->
  (exists pu0,
      parseMultipart r sizeLimit (newParsedUpload r) = (r', pu0, None)
      /\ FileName pu0 = path_Base (part_FileName chosen)
      /\ Data pu0 = capped sizeLimit (pending (part_Body chosen)))
  /\ FileName pu = path_Base (part_FileName chosen)
  /\ (Data pu = capped sizeLimit (pending (part_Body chosen))
      \/ util_GzipData (capped sizeLimit (pending (part_Body chosen))) = (Data pu, None))
  /\ MultipartReader r' = inl (mkForm after (ending form)).
Proof.
  intros Hm Hmr Hsec Hun Hbefore Hnamed Hok.
  destruct (ParseUpload_success _ _ _ _ Hok) as (pu0 & Hacq & ->).
  rewrite (acquire_POST _ _ Hm) in Hacq.
  destruct (parseMultipart_scan_success _ _ _ _ _ _ _ _ _ _ Hmr Hsec Hun Hbefore Hnamed Hacq)
    as (pu1 & _ & _ & _ & _ & HF & HD & HR).
  destruct (finalize_cases r' pu0) as [Hn HFn].
  split; [exists pu0; auto|].
  split; [rewrite HFn; exact HF|].
  split; [|exact HR].
  rewrite <- HD.
  destruct Hn as [u _ _ _ E _ _|j e _ _ _ E _ _|_ HZ _ _ _ _|_ _ E _ _]; auto.
Qed.

(** C10.  On a multipart request with an expected checksum, whose first
    section has no file name and whose payload is taken from a later named
    section: [ParseUpload] succeeds exactly when the first section's
    stream is read without error, within the limit and with a digest equal
    to the expected one, and the named section is read without error and
    within the limit.  The digest of the named section's bytes appears
    nowhere in the condition, and these bytes are the payload acquired. *)
Theorem ParseUpload_replacement_unchecked (r : Request) (sizeLimit : Z)
    (form : multipart_Reader) (part chosen : Part) (before after : list Part) :
  Method r = "POST" ->
  MultipartReader r = inl form ->
  sections form = part :: before ++ chosen :: after ->
  unnamed part ->
  Forall unnamed before ->
  part_FileName chosen <> "" ->
  Header_Get (Header r) "Content-MD5" <> "" ->
  ((exists r' pu, ParseUpload r sizeLimit = (r', pu, None))
   <->
   (exists bytes,
       consumedStream r sizeLimit part = Some (bytes, None)
       /\ Header_Get (Header r) "Content-MD5" = fmt_x (md5_Sum bytes)
       /\ len bytes <> add64 sizeLimit 1)
   /\ limited_error (pending (part_Body chosen)) (failure (part_Body chosen))
                    (add64 sizeLimit 1) = None
   /\ len (capped sizeLimit (pending (part_Body chosen))) <> add64 sizeLimit 1)
  /\ (forall r' pu,
         ParseUpload r sizeLimit = (r', pu, None) ->
         exists pu0,
           acquire r sizeLimit = (r', pu0, None)
           /\ Data pu0 = capped sizeLimit (pending (part_Body chosen))
           /\ Negotiated pu0 pu).
Proof.
  intros Hm Hmr Hsec Hun Hbefore Hnamed Hexp.
  pose proof (readFirstPart_spec r sizeLimit part (namedAfter part (newParsedUpload r))) as S.
  unfold acquiredFirst, checksumAgrees in S.
  pose proof Hexp as Hexp'. apply String.eqb_neq in Hexp'. rewrite Hexp' in S.
  cbn [orb] in S.
  split; [split|].
  - intros (r' & pu & Hok).
    destruct (ParseUpload_success _ _ _ _ Hok) as (pu0 & Hacq & ->).
    rewrite (acquire_POST _ _ Hm) in Hacq.
    destruct (parseMultipart_scan_success _ _ _ _ _ _ _ _ _ _ Hmr Hsec Hun Hbefore Hnamed Hacq)
      as (pu1 & Hfirst & Hlen & Hle & Hlc & _).
    destruct (consumedStream r sizeLimit part) as [[bytes e]|].
    + rewrite S in Hfirst.
      destruct (Header_Get (Header r) "Content-MD5" =? fmt_x (md5_Sum bytes))%string eqn:Hd;
        [|discriminate].
      injection Hfirst as <- ->.
      apply String.eqb_eq in Hd.
      repeat split; auto. exists bytes. repeat split; auto.
    + destruct S as [err S]. rewrite S in Hfirst. discriminate.
  - intros ((bytes & Hcs & Hd & Hlen) & Hle & Hlc).
    rewrite Hcs in S.
    apply String.eqb_eq in Hd. rewrite Hd in S.
    assert (Hlen' : len (Data (set_Data (namedAfter part (newParsedUpload r)) bytes))
                    <> add64 sizeLimit 1) by exact Hlen.
    pose proof (parseMultipart_body_scan _ _ _ _ _ _ _ _ _ Hmr Hsec Hun Hbefore Hnamed S Hlen') as B.
    cbn zeta in B. rewrite Hle in B.
    apply Z.eqb_neq in Hlc. rewrite Hlc in B.
    rewrite ParseUpload_eq, (acquire_POST _ _ Hm). unfold parseMultipart.
    rewrite B. eexists. eexists. reflexivity.
  - intros r' pu Hok.
    destruct (ParseUpload_success _ _ _ _ Hok) as (pu0 & Hacq & ->).
    exists pu0. split; [exact Hacq|].
    rewrite (acquire_POST _ _ Hm) in Hacq.
    destruct (parseMultipart_scan_success _ _ _ _ _ _ _ _ _ _ Hmr Hsec Hun Hbefore Hnamed Hacq)
      as (pu1 & _ & _ & _ & _ & _ & HD & _).
    split; [exact HD|]. apply finalize_cases.
Qed.

(** C1, as the code has it, for the multipart variant.  A successful parse
    never rests on an acquired payload of exactly [sizeLimit + 1] bytes.
    The error is the size-limit error when the first section yields
    exactly [sizeLimit + 1] bytes, read without error and with a digest
    that agrees where one is asked for; and also when the first section,
    unnamed, was read in this way within the limit and the first named
    section after it yields exactly [sizeLimit + 1] bytes. *)
Theorem ParseUpload_multipart_over_limit (r : Request) (sizeLimit : Z) :
  Method r = "POST" ->
  - 2 ^ 63 <= sizeLimit < 2 ^ 63 - 1 ->
  (forall r' pu,
      ParseUpload r sizeLimit = (r', pu, None) ->
      exists pu0, acquire r sizeLimit = (r', pu0, None) /\ len (Data pu0) <> sizeLimit + 1)
  /\ (forall form part rest bytes,
         MultipartReader r = inl form ->
         sections form = part :: rest ->
         acquiredFirst r sizeLimit part = Some (bytes, None) ->
         checksumAgrees r bytes = true ->
         (len bytes = sizeLimit + 1 ->
          snd (ParseUpload r sizeLimit)
          = Some (NewError ("file over the limited " ++ fmt_d sizeLimit ++ " bytes")%string))
         /\ (forall before chosen after,
                len bytes <> sizeLimit + 1 ->
                unnamed part ->
                rest = before ++ chosen :: after ->
                Forall unnamed before ->
                part_FileName chosen <> "" ->
                len (capped sizeLimit (pending (part_Body chosen))) = sizeLimit + 1 ->
                snd (ParseUpload r sizeLimit)
                = Some (NewError ("file over the limited " ++ fmt_d sizeLimit
                                  ++ " bytes")%string))).
Proof.
  intros Hm Hrange.
  pose proof (add64_succ _ Hrange) as HN.
  split.
  - intros r' pu Hok.
    destruct (ParseUpload_success _ _ _ _ Hok) as (pu0 & Hacq0 & ->).
    exists pu0. split; [exact Hacq0|].
    rewrite (acquire_POST _ _ Hm) in Hacq0.
    apply parseMultipart_success, parseMultipart_body_within in Hacq0.
    rewrite <- HN. exact Hacq0.
  - intros form part rest bytes Hmr Hsec Hacq Hagree.
    pose proof (readFirstPart_spec r sizeLimit part (namedAfter part (newParsedUpload r))) as S.
    rewrite Hacq, Hagree in S.
    split.
    + intros Hlen.
      apply ParseUpload_POST_error; [exact Hm|].
      rewrite (parseMultipart_body_eq _ _ _ _ _ _ Hmr Hsec). cbn zeta.
      change (readFirstPart (set_MultipartReader r _) sizeLimit part ?p)
        with (readFirstPart r sizeLimit part p).
      rewrite S. cbn [Data set_Data].
      rewrite HN, Hlen, Z.eqb_refl. reflexivity.
    + intros before chosen after Hlen Hun -> Hbefore Hnamed Hover.
      apply ParseUpload_POST_error; [exact Hm|].
      assert (Hlen' : len (Data (set_Data (namedAfter part (newParsedUpload r)) bytes))
                      <> add64 sizeLimit 1) by (rewrite HN; exact Hlen).
      rewrite (parseMultipart_body_scan _ _ _ _ _ _ _ _ _
                 Hmr Hsec Hun Hbefore Hnamed S Hlen').
      cbn zeta.
      assert (Hle : limited_error (pending (part_Body chosen)) (failure (part_Body chosen))
                                  (add64 sizeLimit 1) = None).
      { unfold limited_error. rewrite HN.
        destruct (sizeLimit + 1 <=? 0) eqn:E0; [reflexivity|].
        apply Z.leb_gt in E0.
        destruct (len (pending (part_Body chosen)) <? sizeLimit + 1) eqn:E1; [|reflexivity].
        apply Z.ltb_lt in E1. exfalso.
        unfold capped, len in *. rewrite length_firstn, HN in Hover. lia. }
      rewrite Hle, HN, Hover, Z.eqb_refl. reflexivity.
Qed.

End Claims.

(** * Further properties of the package *)

Section Further.

Context {TTL : Type} `{Externals TTL}.

(** ** What the acquisition leaves alone *)

(** The first read stores the payload and touches nothing else. *)
Lemma readFirstPart_shape (r : Request) (sizeLimit : Z) (part : Part)
    (pu pu1 : ParsedUpload TTL) (e : option error) :
  readFirstPart r sizeLimit part pu = (pu1, e) ->
  pu1 = pu \/ exists d, pu1 = set_Data pu d.
Proof.
  intros E. pose proof (readFirstPart_spec r sizeLimit part pu) as S.
  destruct (acquiredFirst r sizeLimit part) as [[bytes e']|].
  - rewrite S in E. injection E as <- _. right. exists bytes. reflexivity.
  - destruct S as [err S]. rewrite S in E. injection E as <- _. left. reflexivity.
Qed.

(** The scan leaves the record as it is, or replaces payload and name by
    those of a named section. *)
Lemma scanParts_shape (sizeLimit : Z) (ps : list Part) :
  forall (pu pu' : ParsedUpload TTL) (rest : list Part) (e : option error),
    scanParts sizeLimit ps pu = (rest, pu', e) ->
    pu' = pu
    \/ exists p, In p ps /\ part_FileName p <> ""
                 /\ e = None
                 /\ pu' = set_FileName
                            (set_Data pu (capped sizeLimit (pending (part_Body p))))
                            (path_Base (part_FileName p)).
Proof.
  induction ps as [|p ps IH]; intros pu pu' rest e Hs.
  - cbn in Hs. injection Hs as _ <- _. left. reflexivity.
  - destruct (String.eqb_spec (part_FileName p) "") as [E|E].
    + cbn [scanParts] in Hs. rewrite E in Hs. cbn in Hs.
      destruct (IH _ _ _ _ Hs) as [->|(q & Hin & Hq)]; [left; reflexivity|].
      right. exists q. split; [right; exact Hin|exact Hq].
    + rewrite (scanParts_named sizeLimit p ps pu E) in Hs.
      destruct (limited_error _ _ _).
      { injection Hs as _ <- _. left. reflexivity. }
      destruct (len (capped sizeLimit (pending (part_Body p))) =? add64 sizeLimit 1).
      { injection Hs as _ <- _. left. reflexivity. }
      injection Hs as _ <- <-. right. exists p.
      split; [left; reflexivity|]. repeat split. exact E.
Qed.

Lemma finishMultipart_MimeType (r : Request) (part : Part) (pu : ParsedUpload TTL) :
  MimeType (finishMultipart r part pu) = MimeType pu
  \/ (MimeType (finishMultipart r part pu) <> ""
      /\ MimeType (finishMultipart r part pu) <> octetStream).
Proof.
  unfold finishMultipart.
  destruct (negb (IsChunkedFile (set_IsChunkedFile pu _))); [|left; reflexivity].
  set (ct := Header_Get (part_Header part) "Content-Type").
  destruct (String.eqb_spec ct "") as [E1|E1]; [left; reflexivity|].
  destruct (String.eqb_spec ct "application/octet-stream") as [E2|E2]; [left; reflexivity|].
  cbn [negb andb].
  match goal with |- context [if negb ?c then _ else _] => destruct c end;
    [left; reflexivity|].
  right. cbn. split; assumption.
Qed.

Lemma finishMultipart_untouched (r : Request) (part : Part) (pu : ParsedUpload TTL) :
  PairMap (finishMultipart r part pu) = PairMap pu
  /\ FileName (finishMultipart r part pu) = FileName pu
  /\ Data (finishMultipart r part pu) = Data pu.
Proof.
  unfold finishMultipart.
  destruct (negb (IsChunkedFile (set_IsChunkedFile pu _))); [|repeat split].
  match goal with |- context [if ?c then set_MimeType _ _ else _] => destruct c end;
    repeat split.
Qed.


(** ** [path.Base] *)

Lemma prefix_slash (c : ascii) (s : string) :
  String.prefix "/" (String c s) = Ascii.eqb c "/".
Proof.
  change (String.prefix "/" (String c s))
    with (if ascii_dec "/" c then String.prefix "" s else false).
  destruct (ascii_dec "/" c) as [E|N].
  - subst c. rewrite Ascii.eqb_refl. destruct s; reflexivity.
  - symmetry. apply Ascii.eqb_neq. congruence.
Qed.

(** Behind the last separator there is none. *)
Lemma LastIndex_slash (s : string) :
  forall i last,
    (has_slash s = false -> LastIndex_from s "/" i last = last)
    /\ (has_slash s = true ->
        exists k : nat,
          LastIndex_from s "/" i last = i + Z.of_nat k
          /\ has_slash (string_from (S k) s) = false).
Proof.
  induction s as [|c s IH]; intros i last.
  - split; [reflexivity|discriminate].
  - cbn [LastIndex_from has_slash]. rewrite prefix_slash.
    destruct (IH (i + 1) (if Ascii.eqb c "/" then i else last)) as [IHn IHy].
    destruct (has_slash s) eqn:Hs.
    + split; [rewrite orb_true_r; discriminate|]. intros _.
      destruct (IHy eq_refl) as (k & Hk & Hno).
      exists (S k). split; [rewrite Hk; lia|exact Hno].
    + rewrite orb_false_r. rewrite (IHn eq_refl).
      destruct (Ascii.eqb c "/"); split; try discriminate; try reflexivity.
      intros _. exists O. split; [lia|exact Hs].
Qed.

(** [path.Base] returns a name without directory part, and never the empty
    name. *)
Lemma path_Base_baseNameOnly (p : string) :
  baseNameOnly (path_Base p) /\ path_Base p <> "".
Proof.
  unfold path_Base, baseNameOnly.
  destruct (String.eqb_spec p "") as [E|E].
  - split; [left; reflexivity|discriminate].
  - set (q := stripTrailingSlashes p).
    unfold strings_LastIndex.
    destruct (LastIndex_slash q 0 (-1)) as [Hn Hy].
    destruct (has_slash q) eqn:Hq.
    + destruct (Hy eq_refl) as (k & Hk & Hno). rewrite Hk.
      replace (0 + Z.of_nat k >=? 0) with true by (symmetry; apply Z.geb_le; lia).
      replace (Z.to_nat (0 + Z.of_nat k + 1)) with (S k) by lia.
      destruct (String.eqb_spec (string_from (S k) q) "") as [E2|E2].
      * split; [right; reflexivity|discriminate].
      * split; [left; exact Hno|exact E2].
    + rewrite (Hn eq_refl). cbn [Z.geb Z.compare].
      destruct (String.eqb_spec q "") as [E2|E2].
      * split; [right; reflexivity|discriminate].
      * split; [left; exact Hq|exact E2].
Qed.


Lemma baseNameOnly_empty : baseNameOnly "".
Proof. left. reflexivity. Qed.

Lemma namedAfter_shape (part : Part) (pu : ParsedUpload TTL) :
  baseNameOnly (FileName (namedAfter part pu))
  /\ PairMap (namedAfter part pu) = PairMap pu
  /\ MimeType (namedAfter part pu) = MimeType pu
  /\ Data (namedAfter part pu) = Data pu.
Proof.
  unfold namedAfter. cbn [FileName set_FileName].
  destruct (String.eqb_spec (part_FileName part) "") as [E|E]; cbn [negb].
  - rewrite E. repeat split. apply baseNameOnly_empty.
  - repeat split. apply path_Base_baseNameOnly.
Qed.

(** What [parseMultipart] never touches: the request apart from its
    multipart reader, and the metadata pairs; the name it leaves is a base
    name, and the type it leaves is the one it found or an explicit one
    that is not the generic type. *)
Lemma parseMultipart_body_frame (r r' : Request) (sizeLimit : Z)
    (pu pu' : ParsedUpload TTL) (e : option error) :
  parseMultipart_body r sizeLimit pu = (r', pu', e) ->
  (Method r' = Method r /\ Header r' = Header r /\ FormValue r' = FormValue r
   /\ Body r' = Body r /\ BodyClosed r' = BodyClosed r)
  /\ PairMap pu' = PairMap pu
  /\ (baseNameOnly (FileName pu) -> baseNameOnly (FileName pu'))
  /\ (MimeType pu' = MimeType pu
      \/ (MimeType pu' <> "" /\ MimeType pu' <> octetStream)).
Proof.
  unfold parseMultipart_body, NextPart.
  destruct (MultipartReader r) as [form|fe].
  2:{ intros E. injection E as <- <- <-. repeat split; auto. }
  destruct (sections form) as [|part rest].
  { intros E. injection E as <- <- <-. repeat split; auto. }
  destruct (namedAfter_shape part pu) as (Nb & Np & Nm & _).
  fold (namedAfter part pu).
  destruct (readFirstPart _ sizeLimit part (namedAfter part pu)) as [pu1 e1] eqn:Hf.
  assert (F1 : baseNameOnly (FileName pu1) /\ PairMap pu1 = PairMap pu
               /\ MimeType pu1 = MimeType pu).
  { destruct (readFirstPart_shape _ _ _ _ _ _ Hf) as [->|[d ->]]; cbn; auto. }
  destruct F1 as (B1 & P1 & M1).
  destruct e1 as [e1|].
  { intros E. injection E as <- <- <-. repeat split; auto. }
  destruct (len (Data pu1) =? add64 sizeLimit 1).
  { intros E. injection E as <- <- <-. repeat split; auto. }
  assert (F2 : forall rest' pu2 e2,
             (if (FileName pu1 =? "")%string
              then scanParts sizeLimit rest pu1
              else (rest, pu1, None)) = (rest', pu2, e2) ->
             baseNameOnly (FileName pu2) /\ PairMap pu2 = PairMap pu
             /\ MimeType pu2 = MimeType pu).
  { intros rest' pu2 e2 E.
    destruct (FileName pu1 =? "")%string.
    - destruct (scanParts_shape _ _ _ _ _ _ E) as [->|(p & _ & _ & _ & ->)]; cbn; auto.
      repeat split; auto. apply path_Base_baseNameOnly.
    - injection E as _ <- _. auto. }
  destruct (if (FileName pu1 =? "")%string then _ else _) as [[rest' pu2] e2].
  destruct (F2 _ _ _ eq_refl) as (B2 & P2 & M2).
  destruct e2 as [e2|].
  { intros E. injection E as <- <- <-. repeat split; auto. }
  intros E. injection E as <- <- <-.
  destruct (finishMultipart_untouched
              (set_MultipartReader (set_MultipartReader r (mkForm rest (ending form)))
                                   (mkForm rest' (ending form))) part pu2)
    as (Fp & Ff & _).
  repeat split; auto.
  - rewrite Fp. exact P2.
  - intros _. rewrite Ff. exact B2.
  - destruct (finishMultipart_MimeType
                (set_MultipartReader (set_MultipartReader r (mkForm rest (ending form)))
                                     (mkForm rest' (ending form))) part pu2) as [E|E].
    + left. rewrite E. exact M2.
    + right. exact E.
Qed.


(** ** What the second stage leaves alone *)

Lemma negotiateCompression_untouched (pu : ParsedUpload TTL) :
  PairMap (negotiateCompression pu) = PairMap pu
  /\ MimeType (negotiateCompression pu) = MimeType pu.
Proof.
  unfold negotiateCompression.
  destruct (IsGzipped pu).
  - destruct (util_DecompressData (Data pu)) as [u [e|]]; split; reflexivity.
  - destruct (util_IsGzippableFileType _ _) as [shouldGzip iAmSure].
    destruct ((MimeType pu =? "")%string && negb iAmSure || shouldGzip && iAmSure);
      [|split; reflexivity].
    destruct (util_GzipData (Data pu)) as [c [e|]]; [split; reflexivity|].
    destruct (len c * 10 <? len (Data pu) * 9); split; reflexivity.
Qed.

Lemma detectMimeType_MimeType (pu : ParsedUpload TTL) :
  PairMap (detectMimeType pu) = PairMap pu
  /\ (MimeType pu <> "" -> MimeType (detectMimeType pu) = MimeType pu)
  /\ (MimeType pu = "" -> MimeType (detectMimeType pu) <> octetStream).
Proof.
  unfold detectMimeType.
  destruct (String.eqb_spec (MimeType pu) "") as [E|E].
  - cbn [MimeType set_MimeType].
    destruct (String.eqb_spec (http_DetectContentType (Data pu)) "application/octet-stream")
      as [E2|E2]; cbn.
    + repeat split; [congruence|discriminate].
    + repeat split; [congruence|]. intros _. exact E2.
  - repeat split; congruence.
Qed.

Lemma finalize_untouched (r : Request) (pu0 : ParsedUpload TTL) :
  PairMap (finalize r pu0) = PairMap pu0
  /\ (MimeType pu0 <> "" -> MimeType (finalize r pu0) = MimeType pu0)
  /\ (MimeType pu0 = "" -> MimeType (finalize r pu0) <> octetStream).
Proof.
  unfold finalize.
  set (pu1 := set_UncompressedData _ _).
  destruct (negotiateCompression_untouched (detectMimeType pu1)) as [Np Nm].
  destruct (detectMimeType_MimeType pu1) as (Dp & Dn & De).
  rewrite Np, Nm, Dp. repeat split; auto.
Qed.

(** The outcome of [ParseUpload] in terms of its two stages. *)
Lemma ParseUpload_stages (r : Request) (sizeLimit : Z) :
  errorOf (ParseUpload r sizeLimit) = errorOf (acquire r sizeLimit)
  /\ requestOf (ParseUpload r sizeLimit) = requestOf (acquire r sizeLimit)
  /\ (errorOf (acquire r sizeLimit) <> None ->
      recordOf (ParseUpload r sizeLimit) = recordOf (acquire r sizeLimit))
  /\ (errorOf (acquire r sizeLimit) = None ->
      recordOf (ParseUpload r sizeLimit)
      = finalize (requestOf (acquire r sizeLimit)) (recordOf (acquire r sizeLimit))).
Proof.
  rewrite ParseUpload_eq.
  destruct (acquire r sizeLimit) as [[r1 pu0] [e|]]; cbn;
    repeat split; try reflexivity; try congruence; discriminate.
Qed.

Lemma acquire_not_POST (r : Request) (sizeLimit : Z) :
  Method r <> "POST" ->
  acquire r sizeLimit = parsePut r sizeLimit (newParsedUpload r).
Proof. intros Hm. unfold acquire. rewrite (not_POST _ Hm). reflexivity. Qed.

Lemma parseMultipart_record (r : Request) (sizeLimit : Z) (pu : ParsedUpload TTL) :
  recordOf (parseMultipart r sizeLimit pu) = recordOf (parseMultipart_body r sizeLimit pu)
  /\ errorOf (parseMultipart r sizeLimit pu) = errorOf (parseMultipart_body r sizeLimit pu).
Proof.
  unfold parseMultipart.
  destruct (parseMultipart_body r sizeLimit pu) as [[r1 pu1] [e|]]; split; reflexivity.
Qed.

(** The pairs collected from the headers. *)
Lemma collectPairs_In (h : http_Header) (k v : string) :
  In (k, v) (collectPairs h)
  <-> exists vs, In (k, v :: vs) h /\ strings_HasPrefix k PairNamePrefix = true.
Proof.
  induction h as [|[k0 v0] h IH]; cbn [collectPairs].
  - split; [intros []|intros (vs & [] & _)].
  - destruct v0 as [|x v0].
    + rewrite IH. split.
      * intros (vs & Hin & Hp). exists vs. split; [right; exact Hin|exact Hp].
      * intros (vs & [E|Hin] & Hp); [discriminate|]. exists vs. split; assumption.
    + destruct (strings_HasPrefix k0 PairNamePrefix) eqn:Hp0.
      * cbn [In]. rewrite IH. split.
        -- intros [E|(vs & Hin & Hp)].
           ++ injection E as <- <-. exists v0. split; [left; reflexivity|exact Hp0].
           ++ exists vs. split; [right; exact Hin|exact Hp].
        -- intros (vs & [E|Hin] & Hp).
           ++ injection E as <- <- <-. left. reflexivity.
           ++ right. exists vs. split; assumption.
      * rewrite IH. split.
        -- intros (vs & Hin & Hp). exists vs. split; [right; exact Hin|exact Hp].
        -- intros (vs & [E|Hin] & Hp).
           ++ injection E as <- <- <-. congruence.
           ++ exists vs. split; assumption.
Qed.

Lemma acquire_PairMap (r : Request) (sizeLimit : Z) :
  PairMap (recordOf (acquire r sizeLimit)) = collectPairs (Header r).
Proof.
  unfold acquire.
  destruct (Method r =? "POST")%string.
  - rewrite (proj1 (parseMultipart_record r sizeLimit (newParsedUpload r))).
    destruct (parseMultipart_body r sizeLimit (newParsedUpload r)) as [[r1 pu1] e] eqn:E.
    destruct (parseMultipart_body_frame _ _ _ _ _ _ E) as (_ & P & _).
    exact P.
  - rewrite parsePut_eq. reflexivity.
Qed.

(** ** The metadata pairs *)

(** X1.  Whatever the outcome, the record's [PairMap] holds exactly the
    headers whose name begins with the reserved prefix and that have a
    value, each with its first value: neither the acquisition nor the
    second stage adds or drops a pair. *)
Theorem ParseUpload_PairMap (r : Request) (sizeLimit : Z) (k v : string) :
  In (k, v) (PairMap (recordOf (ParseUpload r sizeLimit)))
  <-> exists vs, In (k, v :: vs) (Header r) /\ strings_HasPrefix k PairNamePrefix = true.
Proof.
  rewrite <- collectPairs_In, <- (acquire_PairMap r sizeLimit).
  destruct (ParseUpload_stages r sizeLimit) as (_ & _ & Hbad & Hok).
  destruct (errorOf (acquire r sizeLimit)) as [e|] eqn:He.
  - rewrite Hbad by discriminate. reflexivity.
  - rewrite (Hok eq_refl), (proj1 (finalize_untouched _ _)). reflexivity.
Qed.


(** ** [ChecksumReader] *)

(** X2.  A [ChecksumReader] is transparent and exact: read to the end, it
    hands out the bytes and the error of the reader it wraps and leaves
    that reader as a direct read would, and its [Checksum] is the digest,
    in hexadecimal, of what the hash held before followed by exactly the
    bytes handed out, however the reads were cut. *)
Theorem ChecksumReader_ReadAll {T} `{io_Reader T} (h0 : list byte) (r : T) :
  let direct := ioutil_ReadAll r in
  let checked := ioutil_ReadAll (mkChecksumReader (mkHash h0) r) in
  snd (fst checked) = snd (fst direct)
  /\ snd checked = snd direct
  /\ cr_r (fst (fst checked)) = fst (fst direct)
  /\ Checksum (fst (fst checked)) = fmt_x (md5_Sum (h0 ++ snd (fst direct))).
Proof.
  cbv zeta. unfold ioutil_ReadAll. cbn [unread ChecksumReader_Reader cr_r].
  pose proof (ReadAll_loop_Checksum (S (unread r)) r h0 []) as L.
  rewrite app_nil_r in L. rewrite L.
  destruct (ReadAll_loop (S (unread r)) r []) as [[r' d] e].
  repeat split.
Qed.

Lemma hex_digit_lower (n : N) : (n < 16)%N -> is_lower_hex (hex_digit n) = true.
Proof.
  intros Hn.
  assert (Hc : In n (map N.of_nat (seq 0 16))).
  { replace n with (N.of_nat (N.to_nat n)) by lia.
    apply in_map, in_seq. lia. }
  cbn in Hc.
  repeat (destruct Hc as [<-|Hc]; [reflexivity|]). destruct Hc.
Qed.

(** The verb [%x] writes two lower-case digits a byte. *)
Lemma fmt_x_lower_hex (bs : list byte) : all_lower_hex (fmt_x bs) = true.
Proof.
  induction bs as [|b bs IH]; [reflexivity|].
  cbn [fmt_x all_lower_hex].
  pose proof (Byte.to_N_bounded b) as Hb.
  rewrite !hex_digit_lower, IH; [reflexivity| |].
  - apply N.mod_lt. discriminate.
  - apply N.Div0.div_lt_upper_bound. lia.
Qed.

(** X3.  The digest is compared as lower-case hexadecimal text: an expected
    checksum with any other character in it (upper-case digits, base64)
    fails every multipart upload whose first section is read, with the
    mismatch error. *)
Theorem ParseUpload_checksum_not_lower_hex (r : Request) (sizeLimit : Z)
    (form : multipart_Reader) (part : Part) (rest : list Part)
    (bytes : list byte) (e : option error) :
  Method r = "POST" ->
  MultipartReader r = inl form ->
  sections form = part :: rest ->
  all_lower_hex (Header_Get (Header r) "Content-MD5") = false ->
  consumedStream r sizeLimit part = Some (bytes, e) ->
  errorOf (ParseUpload r sizeLimit)
  = Some (errChecksum (Header_Get (Header r) "Content-MD5") (fmt_x (md5_Sum bytes))).
Proof.
  intros Hm Hmr Hsec Hhex Hcs.
  assert (Hne : Header_Get (Header r) "Content-MD5" <> "").
  { intros E. rewrite E in Hhex. discriminate. }
  assert (Hd : Header_Get (Header r) "Content-MD5" <> fmt_x (md5_Sum bytes)).
  { intros E. rewrite E, fmt_x_lower_hex in Hhex. discriminate. }
  apply ParseUpload_POST_error; [exact Hm|].
  rewrite (parseMultipart_body_eq _ _ _ _ _ _ Hmr Hsec). cbn zeta.
  pose proof (readFirstPart_spec
                (set_MultipartReader r (mkForm rest (ending form)))
                sizeLimit part (namedAfter part (newParsedUpload r))) as S.
  unfold acquiredFirst, checksumAgrees in S. cbn [Header set_MultipartReader] in S.
  apply String.eqb_neq in Hne, Hd. rewrite Hne in S.
  change (consumedStream (set_MultipartReader r (mkForm rest (ending form))) sizeLimit part)
    with (consumedStream r sizeLimit part) in S.
  rewrite Hcs in S. cbn [orb] in S. rewrite Hd in S. rewrite S. reflexivity.
Qed.

(** ** The exits of [parseMultipart] *)

(** X4.  On a multipart request, every exit with an error leaves the body
    drained to its end and closed; an exit without error does not close
    it. *)
Theorem ParseUpload_multipart_body_release (r : Request) (sizeLimit : Z) :
  Method r = "POST" ->
  (errorOf (ParseUpload r sizeLimit) <> None ->
   BodyClosed (requestOf (ParseUpload r sizeLimit)) = true
   /\ pending (Body (requestOf (ParseUpload r sizeLimit))) = [])
  /\ (errorOf (ParseUpload r sizeLimit) = None ->
      BodyClosed (requestOf (ParseUpload r sizeLimit)) = BodyClosed r).
Proof.
  intros Hm.
  destruct (ParseUpload_stages r sizeLimit) as (He & Hr & _).
  rewrite He, Hr, (acquire_POST _ _ Hm). unfold parseMultipart.
  destruct (parseMultipart_body r sizeLimit (newParsedUpload r)) as [[r1 pu1] e] eqn:E.
  destruct (parseMultipart_body_frame _ _ _ _ _ _ E) as ((_ & _ & _ & Hb & Hc) & _).
  destruct e as [e|]; cbn.
  - split; [intros _|intros D; discriminate].
    split; [reflexivity|].
    unfold io_Copy_Discard. rewrite ReadAll_Source. reflexivity.
  - split; [intros D; congruence|intros _; exact Hc].
Qed.

(** X5.  A body that is no multipart envelope fails with the error of
    [MultipartReader], and an envelope without any section with the error
    of [NextPart] (which is [io.EOF] for a well-formed empty envelope); in
    both cases nothing has been stored in the record. *)
Theorem ParseUpload_no_first_section (r : Request) (sizeLimit : Z) :
  Method r = "POST" ->
  (forall fe, MultipartReader r = inr fe ->
              errorOf (ParseUpload r sizeLimit) = Some fe
              /\ Data (recordOf (ParseUpload r sizeLimit)) = []
              /\ FileName (recordOf (ParseUpload r sizeLimit)) = "")
  /\ (forall form, MultipartReader r = inl form -> sections form = [] ->
                   errorOf (ParseUpload r sizeLimit) = Some (ending form)
                   /\ Data (recordOf (ParseUpload r sizeLimit)) = []
                   /\ FileName (recordOf (ParseUpload r sizeLimit)) = "").
Proof.
  intros Hm.
  split.
  - intros fe Hmr.
    rewrite ParseUpload_eq, (acquire_POST _ _ Hm).
    unfold parseMultipart, parseMultipart_body. rewrite Hmr. repeat split.
  - intros form Hmr Hsec.
    rewrite ParseUpload_eq, (acquire_POST _ _ Hm).
    unfold parseMultipart, parseMultipart_body, NextPart. rewrite Hmr, Hsec. repeat split.
Qed.

(** X6.  With an expected checksum and gzip declared on the request, a
    first section whose content the gzip decoder refuses fails the upload
    with the encoding error, which carries the decoder's message. *)
Theorem ParseUpload_declared_gzip_refused (r : Request) (sizeLimit : Z)
    (form : multipart_Reader) (part : Part) (rest : list Part) (err : error) :
  Method r = "POST" ->
  MultipartReader r = inl form ->
  sections form = part :: rest ->
  Header_Get (Header r) "Content-MD5" <> "" ->
  Header_Get (Header r) "Content-Encoding" = "gzip" ->
  gzip_decode (capped sizeLimit (pending (part_Body part)))
              (limited_error (pending (part_Body part)) (failure (part_Body part))
                             (add64 sizeLimit 1))
  = inr err ->
  errorOf (ParseUpload r sizeLimit)
  = Some (NewError ("Content-Encoding == gzip but content was not gzipped: "
                    ++ error_Error err)%string).
Proof.
  intros Hm Hmr Hsec Hexp Hgz Hdec.
  apply ParseUpload_POST_error; [exact Hm|].
  rewrite (parseMultipart_body_eq _ _ _ _ _ _ Hmr Hsec). cbn zeta.
  unfold readFirstPart. cbn [Header set_MultipartReader].
  apply String.eqb_neq in Hexp. rewrite Hexp, Hgz. cbn [negb String.eqb Ascii.eqb Bool.eqb andb].
  unfold gzip_NewReader.
  destruct (ReadAll_Limited_Part part (add64 sizeLimit 1)) as [l Hl].
  rewrite Hl. unfold capped in Hdec. rewrite Hdec. reflexivity.
Qed.


(** ** Best-effort fields *)

Lemma parseMultipart_body_withForm (r : Request) (f : string -> string)
    (sizeLimit : Z) (pu : ParsedUpload TTL) :
  errorOf (parseMultipart_body (withForm r f) sizeLimit pu)
  = errorOf (parseMultipart_body r sizeLimit pu)
  /\ FileName (recordOf (parseMultipart_body (withForm r f) sizeLimit pu))
     = FileName (recordOf (parseMultipart_body r sizeLimit pu)).
Proof.
  unfold parseMultipart_body, NextPart. cbn [MultipartReader withForm].
  destruct (MultipartReader r) as [form|fe]; [|split; reflexivity].
  destruct (sections form) as [|part rest]; [split; reflexivity|].
  change (readFirstPart (set_MultipartReader (withForm r f) (mkForm rest (ending form))))
    with (readFirstPart (set_MultipartReader r (mkForm rest (ending form)))).
  destruct (readFirstPart _ sizeLimit part _) as [pu1 [e1|]]; [split; reflexivity|].
  destruct (len (Data pu1) =? add64 sizeLimit 1); [split; reflexivity|].
  destruct (if (FileName pu1 =? "")%string then _ else _) as [[rest' pu2] [e2|]];
    [split; reflexivity|].
  cbn [errorOf recordOf fst snd]. split; [reflexivity|].
  rewrite !(proj1 (finishMultipart_frame _ _ _)). reflexivity.
Qed.

(** X7.  The form fields never abort an upload and never change its name:
    whatever [ts], [ttl] and [cm] hold, [ParseUpload] returns the same
    error (or none) and the same [FileName]. *)
Theorem ParseUpload_form_fields_not_fatal (r : Request) (f : string -> string)
    (sizeLimit : Z) :
  errorOf (ParseUpload (withForm r f) sizeLimit) = errorOf (ParseUpload r sizeLimit)
  /\ FileName (recordOf (ParseUpload (withForm r f) sizeLimit))
     = FileName (recordOf (ParseUpload r sizeLimit)).
Proof.
  assert (A : errorOf (acquire (withForm r f) sizeLimit) = errorOf (acquire r sizeLimit)
              /\ FileName (recordOf (acquire (withForm r f) sizeLimit))
                 = FileName (recordOf (acquire r sizeLimit))).
  { unfold acquire. cbn [Method withForm].
    destruct (Method r =? "POST")%string.
    - rewrite !(proj1 (parseMultipart_record _ _ _)), !(proj2 (parseMultipart_record _ _ _)).
      apply parseMultipart_body_withForm.
    - rewrite !parsePut_eq. split; reflexivity. }
  destruct A as [Ae Af].
  destruct (ParseUpload_stages r sizeLimit) as (He & _ & Hbad & Hok).
  destruct (ParseUpload_stages (withForm r f) sizeLimit) as (He' & _ & Hbad' & Hok').
  rewrite He, He'. split; [exact Ae|].
  destruct (errorOf (acquire r sizeLimit)) as [e|] eqn:E.
  - rewrite Hbad by discriminate. rewrite Hbad' by (rewrite Ae; discriminate). exact Af.
  - rewrite (Hok eq_refl), (Hok' Ae).
    rewrite !(proj2 (finalize_cases _ _)). exact Af.
Qed.

(** ** Name and type of the record *)

Lemma acquire_FileName (r : Request) (sizeLimit : Z) :
  baseNameOnly (FileName (recordOf (acquire r sizeLimit))).
Proof.
  unfold acquire.
  destruct (Method r =? "POST")%string.
  - rewrite (proj1 (parseMultipart_record r sizeLimit (newParsedUpload r))).
    destruct (parseMultipart_body r sizeLimit (newParsedUpload r)) as [[r1 pu1] e] eqn:E.
    destruct (parseMultipart_body_frame _ _ _ _ _ _ E) as (_ & _ & B & _).
    apply B. apply baseNameOnly_empty.
  - rewrite parsePut_eq. apply baseNameOnly_empty.
Qed.

(** X8.  Whatever the outcome, the record's [FileName] has no directory
    part: it holds no separator, unless it is the root alone (a declared
    name made of separators only). *)
Theorem ParseUpload_FileName_base (r : Request) (sizeLimit : Z) :
  baseNameOnly (FileName (recordOf (ParseUpload r sizeLimit))).
Proof.
  destruct (ParseUpload_stages r sizeLimit) as (_ & _ & Hbad & Hok).
  destruct (errorOf (acquire r sizeLimit)) as [e|] eqn:E.
  - rewrite Hbad by discriminate. apply acquire_FileName.
  - rewrite (Hok eq_refl), (proj2 (finalize_cases _ _)). apply acquire_FileName.
Qed.

(** X9.  On success the record's [MimeType] is never the generic
    application/octet-stream for a multipart upload; for a single-body
    upload it is the Content-Type header as sent when there is one (the
    generic type included), and otherwise a sniffed type that is not the
    generic one. *)
Theorem ParseUpload_MimeType (r r' : Request) (sizeLimit : Z) (pu : ParsedUpload TTL) :
  ParseUpload r sizeLimit = (r', pu, None) ->
  (Method r = "POST" -> MimeType pu <> octetStream)
  /\ (Method r <> "POST" ->
      (Header_Get (Header r) "Content-Type" <> "" ->
       MimeType pu = Header_Get (Header r) "Content-Type")
      /\ (Header_Get (Header r) "Content-Type" = "" -> MimeType pu <> octetStream)).
Proof.
  intros Hok.
  destruct (ParseUpload_success _ _ _ _ Hok) as (pu0 & Hacq & ->).
  destruct (finalize_untouched r' pu0) as (_ & Fn & Fe).
  split.
  - intros Hm. rewrite (acquire_POST _ _ Hm) in Hacq.
    apply parseMultipart_success in Hacq.
    destruct (parseMultipart_body_frame _ _ _ _ _ _ Hacq) as (_ & _ & _ & [M|[M1 M2]]).
    + apply Fe. rewrite M. reflexivity.
    + rewrite (Fn M1). exact M2.
  - intros Hm. rewrite (acquire_not_POST _ _ Hm), parsePut_eq in Hacq.
    injection Hacq as _ <-. cbn [MimeType] in *. split; assumption.
Qed.


(** ** The sections of a multipart upload *)

(** The acquisition on an envelope with a first section whose payload is
    read without error, with a digest that agrees and within the limit. *)
Lemma parseMultipart_body_first_ok (r : Request) (sizeLimit : Z)
    (form : multipart_Reader) (part : Part) (rest : list Part) (bytes : list byte) :
  MultipartReader r = inl form ->
  sections form = part :: rest ->
  acquiredFirst r sizeLimit part = Some (bytes, None) ->
  checksumAgrees r bytes = true ->
  len bytes <> add64 sizeLimit 1 ->
  readFirstPart r sizeLimit part (namedAfter part (newParsedUpload r))
  = (set_Data (namedAfter part (newParsedUpload r)) bytes, None)
  /\ parseMultipart_body r sizeLimit (newParsedUpload r)
     = let r1 := set_MultipartReader r (mkForm rest (ending form)) in
       let pu1 := set_Data (namedAfter part (newParsedUpload r)) bytes in
       let '(rest', pu2, e) :=
         if (FileName pu1 =? "")%string
         then scanParts sizeLimit rest pu1
         else (rest, pu1, None) in
       let r2 := set_MultipartReader r1 (mkForm rest' (ending form)) in
       match e with
       | Some _ => (r2, pu2, e)
       | None => (r2, finishMultipart r2 part pu2, None)
       end.
Proof.
  intros Hmr Hsec Hacq Hagree Hlen.
  pose proof (readFirstPart_spec r sizeLimit part (namedAfter part (newParsedUpload r))) as S.
  rewrite Hacq, Hagree in S. split; [exact S|].
  rewrite (parseMultipart_body_eq _ _ _ _ _ _ Hmr Hsec). cbn zeta.
  change (readFirstPart (set_MultipartReader r _) sizeLimit part ?p)
    with (readFirstPart r sizeLimit part p).
  rewrite S. cbn [Data set_Data].
  apply Z.eqb_neq in Hlen. rewrite Hlen. reflexivity.
Qed.

(** X10.  In a successful multipart upload the chunk-manifest flag is the
    form value [cm]; for an upload that is no manifest, whether the payload
    counts as compressed is decided by the Content-Encoding header of the
    first section, also when the payload was taken from a later one; for a
    manifest the headers of the section are not looked at. *)
Theorem acquire_multipart_flags (r r' : Request) (sizeLimit : Z) (pu0 : ParsedUpload TTL)
    (form : multipart_Reader) (part : Part) (rest : list Part) :
  Method r = "POST" ->
  MultipartReader r = inl form ->
  sections form = part :: rest ->
  acquire r sizeLimit = (r', pu0, None) ->
  IsChunkedFile pu0 = fst (strconv_ParseBool (FormValue r "cm"))
  /\ (IsChunkedFile pu0 = false ->
      IsGzipped pu0 = (Header_Get (part_Header part) "Content-Encoding" =? "gzip")%string)
  /\ (IsChunkedFile pu0 = true -> IsGzipped pu0 = false /\ MimeType pu0 = "").
Proof.
  intros Hm Hmr Hsec Hacq.
  rewrite (acquire_POST _ _ Hm) in Hacq. apply parseMultipart_success in Hacq.
  rewrite (parseMultipart_body_eq _ _ _ _ _ _ Hmr Hsec) in Hacq. cbn zeta in Hacq.
  destruct (readFirstPart _ sizeLimit part _) as [pu1 e1] eqn:Hf.
  assert (F1 : IsGzipped pu1 = false /\ MimeType pu1 = "" /\ IsChunkedFile pu1 = false).
  { destruct (namedAfter_shape part (newParsedUpload r)) as (_ & _ & Nm & _).
    destruct (readFirstPart_shape _ _ _ _ _ _ Hf) as [->|[d ->]];
      unfold namedAfter; cbn;
      destruct (negb (part_FileName part =? "")%string); repeat split. }
  destruct F1 as (G1 & M1 & C1).
  destruct e1 as [e1|]; [discriminate|].
  destruct (len (Data pu1) =? add64 sizeLimit 1); [discriminate|].
  destruct (if (FileName pu1 =? "")%string then _ else _) as [[rest' pu2] e2] eqn:Hs.
  assert (F2 : IsGzipped pu2 = false /\ MimeType pu2 = "" /\ IsChunkedFile pu2 = false).
  { destruct (FileName pu1 =? "")%string.
    - destruct (scanParts_shape _ _ _ _ _ _ Hs) as [->|(p & _ & _ & _ & ->)]; cbn; auto.
    - injection Hs as _ <- _. auto. }
  destruct F2 as (G2 & M2 & C2).
  destruct e2 as [e2|]; [discriminate|].
  injection Hacq as _ <-.
  unfold finishMultipart. cbn [FormValue set_MultipartReader IsChunkedFile set_IsChunkedFile].
  destruct (fst (strconv_ParseBool (FormValue r "cm"))); cbn [negb].
  - cbn. repeat split; auto. discriminate.
  - match goal with |- context [if ?c then set_MimeType _ _ else _] => destruct c end;
      cbn; repeat split; auto; discriminate.
Qed.

(** X11.  An envelope without any named section is accepted as it is: the
    upload succeeds with an empty [FileName] and the payload of the first
    section, once every section has been requested from the reader. *)
Theorem acquire_no_named_section (r : Request) (sizeLimit : Z)
    (form : multipart_Reader) (part : Part) (rest : list Part) (bytes : list byte) :
  Method r = "POST" ->
  MultipartReader r = inl form ->
  sections form = part :: rest ->
  unnamed part ->
  Forall unnamed rest ->
  acquiredFirst r sizeLimit part = Some (bytes, None) ->
  checksumAgrees r bytes = true ->
  len bytes <> add64 sizeLimit 1 ->
  errorOf (acquire r sizeLimit) = None
  /\ FileName (recordOf (acquire r sizeLimit)) = ""
  /\ Data (recordOf (acquire r sizeLimit)) = bytes
  /\ MultipartReader (requestOf (acquire r sizeLimit)) = inl (mkForm [] (ending form)).
Proof.
  intros Hm Hmr Hsec Hun Hrest Hacq Hagree Hlen.
  destruct (parseMultipart_body_first_ok _ _ _ _ _ _ Hmr Hsec Hacq Hagree Hlen) as [_ B].
  rewrite (acquire_POST _ _ Hm). unfold parseMultipart. rewrite B. cbn zeta.
  assert (HF : FileName (set_Data (namedAfter part (newParsedUpload r)) bytes) = "").
  { unfold namedAfter, unnamed in *. cbn. rewrite Hun. reflexivity. }
  rewrite HF. cbn [String.eqb].
  assert (Hs : scanParts sizeLimit rest
                 (set_Data (namedAfter part (newParsedUpload r)) bytes)
               = ([], set_Data (namedAfter part (newParsedUpload r)) bytes, None)).
  { rewrite <- (app_nil_r rest).
    rewrite (scanParts_unnamed sizeLimit rest [] _ Hrest). reflexivity. }
  rewrite Hs.
  cbn [errorOf recordOf requestOf fst snd].
  rewrite (proj1 (finishMultipart_frame _ _ _)), (proj2 (finishMultipart_frame _ _ _)).
  repeat split. exact HF.
Qed.

(** X12.  When the first section has a name, no other section is requested:
    the upload succeeds with the base of that name and the payload of the
    first section, and every later section is still in the reader. *)
Theorem acquire_named_first_section (r : Request) (sizeLimit : Z)
    (form : multipart_Reader) (part : Part) (rest : list Part) (bytes : list byte) :
  Method r = "POST" ->
  MultipartReader r = inl form ->
  sections form = part :: rest ->
  part_FileName part <> "" ->
  acquiredFirst r sizeLimit part = Some (bytes, None) ->
  checksumAgrees r bytes = true ->
  len bytes <> add64 sizeLimit 1 ->
  errorOf (acquire r sizeLimit) = None
  /\ FileName (recordOf (acquire r sizeLimit)) = path_Base (part_FileName part)
  /\ Data (recordOf (acquire r sizeLimit)) = bytes
  /\ MultipartReader (requestOf (acquire r sizeLimit)) = inl (mkForm rest (ending form)).
Proof.
  intros Hm Hmr Hsec Hnamed Hacq Hagree Hlen.
  destruct (parseMultipart_body_first_ok _ _ _ _ _ _ Hmr Hsec Hacq Hagree Hlen) as [_ B].
  rewrite (acquire_POST _ _ Hm). unfold parseMultipart. rewrite B. cbn zeta.
  assert (HF : FileName (set_Data (namedAfter part (newParsedUpload r)) bytes)
               = path_Base (part_FileName part)).
  { unfold namedAfter. cbn. apply String.eqb_neq in Hnamed. rewrite Hnamed. reflexivity. }
  assert (HN : (FileName (set_Data (namedAfter part (newParsedUpload r)) bytes) =? "")%string
               = false).
  { rewrite HF. apply String.eqb_neq. apply path_Base_baseNameOnly. }
  rewrite HN.
  cbn [errorOf recordOf requestOf fst snd].
  rewrite (proj1 (finishMultipart_frame _ _ _)), (proj2 (finishMultipart_frame _ _ _)).
  repeat split. exact HF.
Qed.


(** ** Size of what is stored *)

(** X13.  The second stage never makes the stored bytes longer: [Data] is
    the acquired payload, or a compressed form of it that is below nine
    tenths of its length.  A payload that came in marked compressed is
    stored as it came, and for one that did not, [UncompressedData] is the
    acquired payload. *)
Theorem ParseUpload_Data_never_grows (r r' : Request) (sizeLimit : Z) (pu : ParsedUpload TTL) :
  ParseUpload r sizeLimit = (r', pu, None) ->
  exists pu0,
    acquire r sizeLimit = (r', pu0, None)
    /\ len (Data pu) <= len (Data pu0)
    /\ (Data pu <> Data pu0 ->
        IsGzipped pu0 = false /\ IsGzipped pu = true
        /\ len (Data pu) * 10 < len (Data pu0) * 9)
    /\ (IsGzipped pu0 = true -> Data pu = Data pu0)
    /\ (IsGzipped pu0 = false -> UncompressedData pu = Data pu0).
Proof.
  intros Hok.
  destruct (ParseUpload_success _ _ _ _ Hok) as (pu0 & Hacq & ->).
  exists pu0. split; [exact Hacq|].
  pose proof (len_nonneg (Data pu0)) as Hpos.
  destruct (finalize_cases r' pu0) as [Hn _].
  destruct Hn as [u G0 _ G HD _ _|j e G0 _ G HD _ _|G0 HZ HL G HU _|G0 G HD HU _].
  - rewrite HD. repeat split; try lia; try congruence.
  - rewrite HD. repeat split; try lia; try congruence.
  - repeat split; try lia; try congruence.
  - rewrite HD. repeat split; try lia; try congruence.
Qed.

Lemma len_capped (sizeLimit : Z) (content : list byte) :
  0 <= add64 sizeLimit 1 -> len (capped sizeLimit content) <= add64 sizeLimit 1.
Proof.
  intros Hn. unfold capped, len. rewrite length_firstn. lia.
Qed.

(** The payload a multipart upload acquires when no decoder is put before
    the read: the capped content of one of the sections. *)
Lemma parseMultipart_body_capped (r r' : Request) (sizeLimit : Z) (pu pu' : ParsedUpload TTL) :
  Header_Get (Header r) "Content-MD5" = ""
  \/ Header_Get (Header r) "Content-Encoding" <> "gzip" ->
  parseMultipart_body r sizeLimit pu = (r', pu', None) ->
  exists form p,
    MultipartReader r = inl form /\ In p (sections form)
    /\ Data pu' = capped sizeLimit (pending (part_Body p)).
Proof.
  intros Hplain Hok.
  destruct (MultipartReader r) as [form|fe] eqn:Hmr.
  2:{ unfold parseMultipart_body in Hok. rewrite Hmr in Hok. discriminate. }
  destruct (sections form) as [|part rest] eqn:Hsec.
  { unfold parseMultipart_body, NextPart in Hok. rewrite Hmr, Hsec in Hok. discriminate. }
  exists form. rewrite Hsec.
  rewrite (parseMultipart_body_eq _ _ _ _ _ _ Hmr Hsec) in Hok. cbn zeta in Hok.
  change (readFirstPart (set_MultipartReader r _) sizeLimit part ?p)
    with (readFirstPart r sizeLimit part p) in Hok.
  pose proof (readFirstPart_spec r sizeLimit part (namedAfter part pu)) as S.
  assert (A : exists e, acquiredFirst r sizeLimit part
                        = Some (capped sizeLimit (pending (part_Body part)), e)).
  { unfold acquiredFirst, consumedStream.
    destruct (Header_Get (Header r) "Content-MD5" =? "")%string eqn:E1; [eexists; reflexivity|].
    destruct Hplain as [E|E]; [apply String.eqb_neq in E1; contradiction|].
    apply String.eqb_neq in E. rewrite E. eexists. reflexivity. }
  destruct A as [e0 A]. rewrite A in S. rewrite S in Hok.
  match type of Hok with context [if checksumAgrees ?a ?b then _ else _] =>
    destruct (if checksumAgrees a b then e0 else _) as [e1|] end; [discriminate|].
  destruct (len (Data _) =? add64 sizeLimit 1); [discriminate|].
  destruct (if (FileName _ =? "")%string then _ else _) as [[rest' pu2] e2] eqn:Hs.
  destruct e2 as [e2|]; [discriminate|].
  injection Hok as _ <-.
  rewrite (proj2 (finishMultipart_frame _ _ _)).
  destruct (FileName (set_Data (namedAfter part pu) _) =? "")%string.
  - destruct (scanParts_shape _ _ _ _ _ _ Hs) as [->|(p & Hin & _ & _ & ->)].
    + exists part. split; [reflexivity|]. split; [left; reflexivity|reflexivity].
    + exists p. split; [reflexivity|]. split; [right; exact Hin|reflexivity].
  - injection Hs as _ <- . exists part.
    split; [reflexivity|]. split; [left; reflexivity|reflexivity].
Qed.

(** X14.  A multipart upload that succeeds without a gzip decoder before
    the read (no expected checksum, or no gzip declared on the request)
    stores at most [sizeLimit] bytes. *)
Theorem ParseUpload_multipart_within_limit (r r' : Request) (sizeLimit : Z)
    (pu : ParsedUpload TTL) :
  Method r = "POST" ->
  -1 <= sizeLimit < 2 ^ 63 - 1 ->
  Header_Get (Header r) "Content-MD5" = ""
  \/ Header_Get (Header r) "Content-Encoding" <> "gzip" ->
  ParseUpload r sizeLimit = (r', pu, None) ->
  len (Data pu) <= sizeLimit.
Proof.
  intros Hm Hrange Hplain Hok.
  destruct (ParseUpload_success _ _ _ _ Hok) as (pu0 & Hacq & ->).
  rewrite (acquire_POST _ _ Hm) in Hacq. apply parseMultipart_success in Hacq.
  pose proof (parseMultipart_body_within _ _ _ _ _ Hacq) as Hne.
  destruct (parseMultipart_body_capped _ _ _ _ _ Hplain Hacq) as (form & p & _ & _ & HD).
  assert (HN : add64 sizeLimit 1 = sizeLimit + 1) by (apply add64_succ; lia).
  pose proof (len_capped sizeLimit (pending (part_Body p))) as Hc.
  rewrite <- HD, HN in Hc. rewrite HN in Hne.
  pose proof (len_nonneg (Data (finalize r' pu0))) as Hpos.
  destruct (finalize_cases r' pu0) as [Hn _].
  destruct Hn as [u _ _ _ E _ _|j e _ _ _ E _ _|_ _ HL _ _ _|_ _ E _ _];
    rewrite ?E; lia.
Qed.


(** ** The single-body variant *)

(** X15.  A single-body upload without gzip declared keeps as logical
    content the first [sizeLimit + 1] bytes of the body and counts them:
    a longer body is cut there without an error. *)
Theorem ParseUpload_put_truncates (r : Request) (sizeLimit : Z) :
  Method r <> "POST" ->
  0 <= sizeLimit < 2 ^ 63 - 1 ->
  Header_Get (Header r) "Content-Encoding" <> "gzip" ->
  errorOf (ParseUpload r sizeLimit) = None
  /\ UncompressedData (recordOf (ParseUpload r sizeLimit))
     = firstn (Z.to_nat (sizeLimit + 1)) (pending (Body r))
  /\ OriginalDataSize (recordOf (ParseUpload r sizeLimit))
     = Z.min (len (pending (Body r))) (sizeLimit + 1).
Proof.
  intros Hm Hrange Hgz.
  destruct (ParseUpload_stages r sizeLimit) as (He & _ & _ & Hok).
  rewrite He in *. rewrite (acquire_not_POST _ _ Hm), parsePut_eq in *.
  cbn [errorOf recordOf requestOf fst snd] in *.
  split; [reflexivity|]. rewrite (Hok eq_refl).
  match goal with |- context [finalize ?a ?b] =>
    destruct (finalize_cases a b) as [Hn _]; set (pu := finalize a b) in * end.
  apply String.eqb_neq in Hgz.
  assert (HN : add64 sizeLimit 1 = sizeLimit + 1) by (apply add64_succ; lia).
  assert (HL : len (firstn (Z.to_nat (sizeLimit + 1)) (pending (Body r)))
               = Z.min (len (pending (Body r))) (sizeLimit + 1)).
  { unfold len. rewrite length_firstn. lia. }
  destruct Hn as [u G0 _ _ _ _ _|j e G0 _ _ _ _ _|_ _ _ _ HU HO|_ _ _ HU HO];
    cbn [IsGzipped Data] in *; try congruence;
    rewrite HU, HO; unfold capped; rewrite HN; (split; [reflexivity|exact HL]).
Qed.

(** X16.  A cap that wraps below zero reads nothing: with [sizeLimit] the
    largest [int64] (or below -1), a single-body upload succeeds with an
    empty [Data] whatever the body holds, and the body is closed with all
    of it unread. *)
Theorem ParseUpload_put_wrapped_cap (r : Request) (sizeLimit : Z) :
  Method r <> "POST" ->
  add64 sizeLimit 1 < 0 ->
  errorOf (ParseUpload r sizeLimit) = None
  /\ Data (recordOf (ParseUpload r sizeLimit)) = []
  /\ pending (Body (requestOf (ParseUpload r sizeLimit))) = pending (Body r)
  /\ BodyClosed (requestOf (ParseUpload r sizeLimit)) = true.
Proof.
  intros Hm Hneg.
  destruct (ParseUpload_stages r sizeLimit) as (He & Hr & _ & Hok).
  rewrite He, Hr in *. rewrite (acquire_not_POST _ _ Hm), parsePut_eq in *.
  cbn [errorOf recordOf requestOf fst snd OriginalDataSize newParsedUpload] in *.
  replace (0 =? add64 sizeLimit 1) with false by (symmetry; apply Z.eqb_neq; lia).
  cbn [Body BodyClosed pending].
  replace (Z.to_nat (add64 sizeLimit 1)) with O by lia.
  split; [reflexivity|]. split; [|split; reflexivity].
  rewrite (Hok eq_refl).
  match goal with |- context [finalize ?a ?b] =>
    destruct (finalize_cases a b) as [Hn _]; set (pu := finalize a b) in * end.
  assert (HC : capped sizeLimit (pending (Body r)) = []).
  { unfold capped. replace (Z.to_nat (add64 sizeLimit 1)) with O by lia. reflexivity. }
  destruct Hn as [u _ _ _ E _ _|j e _ _ _ E _ _|_ _ HL _ _ _|_ _ E _ _];
    cbn [Data] in *; rewrite ?HC in *; try exact E.
  pose proof (len_nonneg (Data pu)). change (len (@nil byte)) with 0 in HL. lia.
Qed.

(** X17.  Sending back what a single-body upload stored gives the same
    record: when an upload ends with [IsGzipped] true, a second
    single-body upload of its [Data] with gzip declared ends with the same
    [Data], [UncompressedData] and [OriginalDataSize] (the compression
    helpers being lossless). *)
Theorem ParseUpload_put_again (r1 r1' r2 : Request) (sizeLimit : Z) (pu1 : ParsedUpload TTL) :
  lossless ->
  Method r1 <> "POST" ->
  Method r2 <> "POST" ->
  0 <= sizeLimit < 2 ^ 63 - 1 ->
  ParseUpload r1 sizeLimit = (r1', pu1, None) ->
  IsGzipped pu1 = true ->
  Header_Get (Header r2) "Content-Encoding" = "gzip" ->
  pending (Body r2) = Data pu1 ->
  errorOf (ParseUpload r2 sizeLimit) = None
  /\ IsGzipped (recordOf (ParseUpload r2 sizeLimit)) = true
  /\ Data (recordOf (ParseUpload r2 sizeLimit)) = Data pu1
  /\ UncompressedData (recordOf (ParseUpload r2 sizeLimit)) = UncompressedData pu1
  /\ OriginalDataSize (recordOf (ParseUpload r2 sizeLimit)) = OriginalDataSize pu1.
Proof.
  intros Hll Hm1 Hm2 Hrange Hok1 Hgz1 Hce2 Hbody2.
  assert (HN : add64 sizeLimit 1 = sizeLimit + 1) by (apply add64_succ; lia).
  (* the first upload *)
  destruct (ParseUpload_success _ _ _ _ Hok1) as (pu0 & Hacq1 & ->).
  rewrite (acquire_not_POST _ _ Hm1), parsePut_eq in Hacq1.
  injection Hacq1 as _ Hpu0.
  assert (HD0 : Data pu0 = capped sizeLimit (pending (Body r1)))
    by (rewrite <- Hpu0; reflexivity).
  destruct (finalize_cases r1' pu0) as [Hn1 _].
  set (pu1 := finalize r1' pu0) in *.
  (* what it stored fits under the cap *)
  assert (Hfit : capped sizeLimit (Data pu1) = Data pu1).
  { unfold capped. apply firstn_all2.
    pose proof (len_capped sizeLimit (pending (Body r1))) as Hc.
    rewrite <- HD0, HN in Hc. rewrite HN.
    assert (len (Data pu1) <= len (Data pu0)).
    { pose proof (len_nonneg (Data pu1)).
      destruct Hn1 as [u _ _ _ E _ _|j e _ _ _ E _ _|_ _ HL _ _ _|_ _ E _ _];
        rewrite ?E; lia. }
    unfold len in *. lia. }
  (* the second upload *)
  destruct (ParseUpload_stages r2 sizeLimit) as (He & _ & _ & Hok2).
  rewrite He in *. rewrite (acquire_not_POST _ _ Hm2), parsePut_eq in *.
  cbn [errorOf recordOf requestOf fst snd] in *.
  split; [reflexivity|]. rewrite (Hok2 eq_refl).
  rewrite Hce2, Hbody2, Hfit.
  match goal with |- context [finalize ?a ?b] =>
    destruct (finalize_cases a b) as [Hn2 _]; set (pu2 := finalize a b) in * end.
  cbn [String.eqb Ascii.eqb Bool.eqb andb] in Hn2.
  (* what the decoder makes of the stored bytes *)
  destruct Hn2 as [u _ HDec G HD HU HO|j e _ HDec G HD HU HO|G0 _ _ _ _ _|G0 _ _ _ _];
    cbn [IsGzipped Data] in *; try discriminate.
  - split; [exact G|]. split; [exact HD|].
    destruct Hn1 as [u1 _ HDec1 _ E1 HU1 HO1|j1 e1 _ HDec1 _ E1 HU1 HO1
                    |_ HZ1 _ _ HU1 HO1|_ G1 _ _ _]; try congruence.
    + rewrite E1 in HDec. rewrite HDec1 in HDec. injection HDec as <-.
      rewrite HU, HO, HU1, HO1. split; reflexivity.
    + apply Hll in HZ1. rewrite HZ1 in HDec. injection HDec as <-.
      rewrite HU, HO, HU1, HO1. split; reflexivity.
  - split; [exact G|]. split; [exact HD|].
    destruct Hn1 as [u1 _ HDec1 _ E1 HU1 HO1|j1 e1 _ HDec1 _ E1 HU1 HO1
                    |_ HZ1 _ _ HU1 HO1|_ G1 _ _ _]; try congruence.
    + rewrite HU, HO, HU1, HO1, E1. split; reflexivity.
    + apply Hll in HZ1. congruence.
Qed.

(** ** Read failures in a multipart upload *)

(** X18.  A first section whose read ends in an error, the digest agreeing
    where one is asked for, fails the upload with that very error. *)
Theorem ParseUpload_first_section_read_error (r : Request) (sizeLimit : Z)
    (form : multipart_Reader) (part : Part) (rest : list Part)
    (bytes : list byte) (err : error) :
  Method r = "POST" ->
  MultipartReader r = inl form ->
  sections form = part :: rest ->
  acquiredFirst r sizeLimit part = Some (bytes, Some err) ->
  checksumAgrees r bytes = true ->
  errorOf (ParseUpload r sizeLimit) = Some err.
Proof.
  intros Hm Hmr Hsec Hacq Hagree.
  apply ParseUpload_POST_error; [exact Hm|].
  rewrite (parseMultipart_body_eq _ _ _ _ _ _ Hmr Hsec). cbn zeta.
  change (readFirstPart (set_MultipartReader r _) sizeLimit part ?p)
    with (readFirstPart r sizeLimit part p).
  pose proof (readFirstPart_spec r sizeLimit part (namedAfter part (newParsedUpload r))) as S.
  rewrite Hacq, Hagree in S. rewrite S. reflexivity.
Qed.

(** X19.  When the payload is to be taken from a later named section and
    the read of that section breaks off with an error before the cap, the
    upload fails with that error, although the first section was read
    well. *)
Theorem ParseUpload_replacement_read_error (r : Request) (sizeLimit : Z)
    (form : multipart_Reader) (part chosen : Part) (before after : list Part)
    (bytes : list byte) (msg : string) :
  Method r = "POST" ->
  MultipartReader r = inl form ->
  sections form = part :: before ++ chosen :: after ->
  unnamed part ->
  Forall unnamed before ->
  part_FileName chosen <> "" ->
  acquiredFirst r sizeLimit part = Some (bytes, None) ->
  checksumAgrees r bytes = true ->
  len bytes <> add64 sizeLimit 1 ->
  failure (part_Body chosen) = Some (NewError msg) ->
  len (pending (part_Body chosen)) < add64 sizeLimit 1 ->
  errorOf (ParseUpload r sizeLimit) = Some (NewError msg).
Proof.
  intros Hm Hmr Hsec Hun Hbefore Hnamed Hacq Hagree Hlen Hfail Hshort.
  apply ParseUpload_POST_error; [exact Hm|].
  destruct (parseMultipart_body_first_ok _ _ _ _ _ _ Hmr Hsec Hacq Hagree Hlen) as [S _].
  assert (Hlen' : len (Data (set_Data (namedAfter part (newParsedUpload r)) bytes))
                  <> add64 sizeLimit 1) by exact Hlen.
  rewrite (parseMultipart_body_scan _ _ _ _ _ _ _ _ _ Hmr Hsec Hun Hbefore Hnamed S Hlen').
  cbn zeta. unfold limited_error.
  pose proof (len_nonneg (pending (part_Body chosen))).
  replace (add64 sizeLimit 1 <=? 0) with false by (symmetry; apply Z.leb_gt; lia).
  replace (len (pending (part_Body chosen)) <? add64 sizeLimit 1) with true
    by (symmetry; apply Z.ltb_lt; lia).
  rewrite Hfail. reflexivity.
Qed.

End Further.

(** ** The small instance at work *)

Module DemoFacts.

Import Demo.

Lemma leadingZeros_le (cap : nat) : forall d, (leadingZeros cap d <= cap)%nat.
Proof.
  induction cap as [|cap IH]; intros [|b d]; cbn; try lia.
  destruct (Byte.eqb b x00); [|lia].
  specialize (IH d). lia.
Qed.

Lemma leadingZeros_split (cap : nat) :
  forall d, repeat x00 (leadingZeros cap d) ++ skipn (leadingZeros cap d) d = d.
Proof.
  induction cap as [|cap IH]; intros [|b d]; cbn; try reflexivity.
  destruct (Byte.eqb b x00) eqn:E; [|reflexivity].
  apply Byte.byte_dec_bl in E. subst b. cbn. f_equal. apply IH.
Qed.

Lemma byte_of_nat_to_nat (n : nat) : (n <= 255)%nat -> Byte.to_nat (byte_of_nat n) = n.
Proof.
  intros Hn. unfold byte_of_nat.
  destruct (Byte.of_nat n) as [b|] eqn:E.
  - apply Byte.to_of_nat. exact E.
  - apply Byte.of_nat_None_iff in E. lia.
Qed.

(** The codec of the instance is lossless. *)
Lemma codec_lossless : @lossless string externals.
Proof.
  intros d c E. change (GzipData d = (c, None)) in E.
  unfold GzipData in E.
  pose proof (leadingZeros_le 255 d) as Hle.
  pose proof (leadingZeros_split 255 d) as Hsplit.
  set (n := leadingZeros 255 d) in *.
  injection E as <-.
  change (DecompressData (x1f :: x8b :: byte_of_nat n :: skipn n d) = (d, None)).
  cbn [DecompressData].
  rewrite byte_of_nat_to_nat by exact Hle.
  rewrite Hsplit. reflexivity.
Qed.

End DemoFacts.

(** ** The statements on concrete requests *)

Import Demo.
#[local] Existing Instance Demo.externals.

(** [ParseUpload] succeeds on [r]. *)
Ltac succeeds r n :=
  assert (ParseUpload r n
          = (requestOf (ParseUpload r n), recordOf (ParseUpload r n), None))
    by run.

Lemma PUT_is_not_POST : "PUT" <> "POST".
Proof. apply String.eqb_neq. reflexivity. Qed.

(** The scenario of the specification: a body "hello" of type text/plain. *)
Example ParseUpload_helloPut :
  let pu := recordOf (ParseUpload helloPut 1000) in
  errorOf (ParseUpload helloPut 1000) = None
  /\ FileName pu = "" /\ MimeType pu = "text/plain" /\ Data pu = bytes "hello"
  /\ IsGzipped pu = false /\ OriginalDataSize pu = 5.
Proof. repeat split; run. Qed.

Lemma ParseUpload_OriginalDataSize_witness :
  let pu := recordOf (ParseUpload zerosPut 1000) in
  errorOf (ParseUpload zerosPut 1000) = None
  /\ OriginalDataSize pu = 40
  /\ OriginalDataSize pu = len (UncompressedData pu).
Proof.
  intros pu; subst pu. succeeds zerosPut 1000.
  split; [run|]. split; [run|].
  exact (proj1 (ParseUpload_OriginalDataSize _ _ _ _ H)).
Defined.

(** C3 fails where a request declares gzip over a body that is not gzip:
    the parse succeeds, [IsGzipped] is true, and [Data] does not decode. *)
Lemma ParseUpload_gzip_roundtrip_counterexample :
  let pu := recordOf (ParseUpload declaredPut 1000) in
  errorOf (ParseUpload declaredPut 1000) = None
  /\ IsGzipped pu = true
  /\ Data pu = bytes "hello"
  /\ UncompressedData pu = bytes "hello"
  /\ util_DecompressData (Data pu) <> (UncompressedData pu, None).
Proof.
  repeat split; try run. vm_compute. discriminate.
Qed.

Lemma ParseUpload_gzip_roundtrip_witness :
  let pu := recordOf (ParseUpload zerosPut 1000) in
  errorOf (ParseUpload zerosPut 1000) = None
  /\ IsGzipped pu = true
  /\ Data pu = [x1f; x8b; x28]
  /\ (forall u, util_DecompressData (Data pu) = (u, None) -> u = UncompressedData pu).
Proof.
  intros pu; subst pu. succeeds zerosPut 1000.
  assert (G : IsGzipped (recordOf (ParseUpload zerosPut 1000)) = true) by run.
  split; [run|]. split; [exact G|]. split; [run|].
  exact (proj1 (proj2 (ParseUpload_gzip_roundtrip _ _ _ _
                         DemoFacts.codec_lossless H G))).
Defined.

(** C4 fails where the negotiation compresses: forty zero bytes sent
    without any header are sniffed as application/octet-stream, the type is
    reset to empty, compression is attempted and kept, and [IsGzipped] is
    true without a Content-Encoding header. *)
Lemma ParseUpload_put_IsGzipped_counterexample :
  let pu := recordOf (ParseUpload zerosPut 1000) in
  Method zerosPut <> "POST"
  /\ errorOf (ParseUpload zerosPut 1000) = None
  /\ Header_Get (Header zerosPut) "Content-Encoding" <> "gzip"
  /\ IsGzipped pu = true.
Proof.
  split; [exact PUT_is_not_POST|].
  split; [run|].
  split; [vm_compute; discriminate|run].
Qed.

Lemma ParseUpload_put_FileName_IsGzipped_witness :
  let pu := recordOf (ParseUpload declaredPut 1000) in
  errorOf (ParseUpload declaredPut 1000) = None
  /\ FileName pu = ""
  /\ (IsGzipped pu = true <->
      Header_Get (Header declaredPut) "Content-Encoding" = "gzip"
      \/ (util_GzipData (UncompressedData pu) = (Data pu, None)
          /\ len (Data pu) * 10 < len (UncompressedData pu) * 9)).
Proof.
  intros pu; subst pu. succeeds declaredPut 1000.
  split; [run|].
  exact (ParseUpload_put_FileName_IsGzipped declaredPut _ 1000 _ PUT_is_not_POST H).
Defined.

(** C5 fails at exactly nine tenths: the compressed form has 9 bytes, the
    original 10, which is no larger than 90%, and it is not kept.  The
    codec of the instance reaches the ratio on ten bytes; for any other
    helper [negotiateCompression_at_nine_tenths] says the same of every
    payload it brings to nine tenths. *)
Lemma negotiateCompression_boundary_counterexample :
  IsGzipped boundaryRecord = false
  /\ compressionAttempted boundaryRecord = true
  /\ util_GzipData (Data boundaryRecord) = (x1f :: x8b :: x04 :: bytes "abcdef", None)
  /\ len (x1f :: x8b :: x04 :: bytes "abcdef") * 10 <= len (Data boundaryRecord) * 9
  /\ IsGzipped (negotiateCompression boundaryRecord) = false
  /\ Data (negotiateCompression boundaryRecord) = Data boundaryRecord.
Proof.
  repeat split; try run. vm_compute. discriminate.
Qed.

(** [boundaryRecord] is what [ParseUpload] negotiates on for [boundaryPut]. *)
Example ParseUpload_boundaryPut :
  ParseUpload boundaryPut 1000
  = (requestOf (ParseUpload boundaryPut 1000), negotiateCompression boundaryRecord, None).
Proof. run. Qed.

Lemma negotiateCompression_keeps_iff_witness :
  (IsGzipped (negotiateCompression zerosRecord) = true <-> 3 * 10 < 40 * 9)
  /\ Data (negotiateCompression zerosRecord) = [x1f; x8b; x28].
Proof.
  assert (A : compressionAttempted zerosRecord = true) by run.
  assert (Z : util_GzipData (Data zerosRecord) = ([x1f; x8b; x28], None)) by run.
  destruct (negotiateCompression_keeps_iff zerosRecord [x1f; x8b; x28] eq_refl A Z)
    as (W1 & W2 & _).
  split; [exact W1|]. apply W2. vm_compute. reflexivity.
Defined.

Lemma ParseUpload_put_read_error_dropped_witness :
  snd (ioutil_ReadAll (io_LimitReader (Body brokenPut) (add64 4 1)))
  = Some (NewError "connection reset by peer")
  /\ snd (ParseUpload brokenPut 4) = None.
Proof.
  apply (ParseUpload_put_read_error_dropped brokenPut 4 "connection reset by peer").
  - exact PUT_is_not_POST.
  - reflexivity.
  - vm_compute. reflexivity.
Defined.

(** The record returned for the broken body holds the two bytes that
    arrived. *)
Example ParseUpload_brokenPut :
  errorOf (ParseUpload brokenPut 4) = None
  /\ Data (recordOf (ParseUpload brokenPut 4)) = bytes "he".
Proof. split; run. Qed.

Lemma ParseUpload_put_remainder_unread_witness :
  BodyClosed (fst (fst (ParseUpload longPut 2))) = true
  /\ pending (Body (fst (fst (ParseUpload longPut 2)))) = skipn (Z.to_nat (2 + 1)) (bytes "abcdef")
  /\ pending (Body (fst (fst (ParseUpload longPut 2)))) <> [].
Proof.
  apply (ParseUpload_put_remainder_unread longPut 2).
  - exact PUT_is_not_POST.
  - lia.
  - vm_compute. reflexivity.
Defined.

Example ParseUpload_longPut :
  errorOf (ParseUpload longPut 2) = None
  /\ Data (recordOf (ParseUpload longPut 2)) = bytes "abc"
  /\ pending (Body (requestOf (ParseUpload longPut 2))) = bytes "def"
  /\ BodyClosed (requestOf (ParseUpload longPut 2)) = true.
Proof. repeat split; run. Qed.

Lemma ParseUpload_checksum_mismatch_witness :
  snd (ParseUpload mismatchPost 1000)
  = Some (NewError "Content-MD5 did not match md5 of file data [abc123] != [1405]").
Proof.
  assert (E : Header_Get (Header mismatchPost) "Content-MD5" <> "")
    by (vm_compute; discriminate).
  assert (C : consumedStream mismatchPost 1000 (section "a.txt" [] "hello")
              = Some (bytes "hello", None)) by run.
  assert (D : fmt_x (md5_Sum (bytes "hello")) <> Header_Get (Header mismatchPost) "Content-MD5")
    by (vm_compute; discriminate).
  exact (ParseUpload_checksum_mismatch mismatchPost 1000
           (mkForm [section "a.txt" [] "hello"] io_EOF)
           (section "a.txt" [] "hello") [] (bytes "hello") None
           eq_refl eq_refl eq_refl E C D).
Defined.

Lemma ParseUpload_later_named_section_witness :
  let o := ParseUpload scanPost 1000 in
  errorOf o = None
  /\ FileName (recordOf o) = "b.txt"
  /\ Data (recordOf o) = bytes "world"
  /\ MultipartReader (requestOf o) = inl (mkForm [section "c.txt" [] "zzz"] io_EOF).
Proof.
  intros o; subst o. succeeds scanPost 1000.
  assert (U : Forall (@unnamed) [section "" [] "x"])
    by (constructor; [reflexivity|constructor]).
  assert (N : part_FileName (section "d/b.txt" [] "world") <> "")
    by (vm_compute; discriminate).
  destruct (ParseUpload_later_named_section scanPost _ 1000 _
              (mkForm [section "" [] "hello"; section "" [] "x";
                       section "d/b.txt" [] "world"; section "c.txt" [] "zzz"] io_EOF)
              (section "" [] "hello") (section "d/b.txt" [] "world")
              [section "" [] "x"] [section "c.txt" [] "zzz"]
              eq_refl eq_refl eq_refl eq_refl U N H)
    as (_ & W1 & _ & W3).
  split; [run|]. split; [exact W1|]. split; [run|]. exact W3.
Defined.

(** The expected digest 1405 is that of "hello"; the payload returned is
    "world", whose digest is 2805. *)
Lemma ParseUpload_replacement_unchecked_witness :
  (exists r' pu, ParseUpload checkedScanPost 1000 = (r', pu, None))
  /\ Data (recordOf (ParseUpload checkedScanPost 1000)) = bytes "world"
  /\ fmt_x (md5_Sum (bytes "world")) = "2805"
  /\ Header_Get (Header checkedScanPost) "Content-MD5" = "1405".
Proof.
  assert (N : part_FileName (section "b.txt" [] "world") <> "")
    by (vm_compute; discriminate).
  assert (E : Header_Get (Header checkedScanPost) "Content-MD5" <> "")
    by (vm_compute; discriminate).
  destruct (ParseUpload_replacement_unchecked checkedScanPost 1000
              (mkForm [section "" [] "hello"; section "b.txt" [] "world"] io_EOF)
              (section "" [] "hello") (section "b.txt" [] "world") [] []
              eq_refl eq_refl eq_refl eq_refl (Forall_nil _) N E)
    as [[_ W] _].
  split; [|repeat split; run].
  apply W. split; [|split].
  - exists (bytes "hello"). split; [run|]. split; [run|]. vm_compute. discriminate.
  - run.
  - vm_compute. discriminate.
Defined.

(** C1 fails in the multipart variant where the digest disagrees as well:
    the section yields [sizeLimit + 1 = 5] bytes, and the error returned is
    the mismatch error, which the code tests first. *)
Lemma ParseUpload_over_limit_counterexample :
  Method mismatchPost = "POST"
  /\ len (capped 4 (bytes "hello")) = 4 + 1
  /\ Data (recordOf (ParseUpload mismatchPost 4)) = bytes "hello"
  /\ errorOf (ParseUpload mismatchPost 4)
     = Some (NewError "Content-MD5 did not match md5 of file data [abc123] != [1405]")
  /\ errorOf (ParseUpload mismatchPost 4)
     <> Some (NewError "file over the limited 4 bytes").
Proof.
  repeat split; try run. vm_compute. discriminate.
Qed.

(** In the single-body variant a body of [sizeLimit + 1] bytes is parsed
    with success. *)
Example ParseUpload_helloPut_over_limit :
  len (bytes "hello") = 4 + 1
  /\ errorOf (ParseUpload helloPut 4) = None
  /\ Data (recordOf (ParseUpload helloPut 4)) = bytes "hello".
Proof. repeat split; run. Qed.

Lemma ParseUpload_multipart_over_limit_witness :
  len (bytes "hello") = 4 + 1
  /\ snd (ParseUpload overPost 4) = Some (NewError "file over the limited 4 bytes").
Proof.
  split; [run|].
  assert (A : acquiredFirst overPost 4 (section "a.txt" [] "hello")
              = Some (bytes "hello", None)) by run.
  assert (C : checksumAgrees overPost (bytes "hello") = true) by run.
  assert (R : - 2 ^ 63 <= 4 < 2 ^ 63 - 1) by lia.
  destruct (ParseUpload_multipart_over_limit overPost 4 eq_refl R) as [_ W].
  destruct (W (mkForm [section "a.txt" [] "hello"] io_EOF)
              (section "a.txt" [] "hello") [] (bytes "hello")
              eq_refl eq_refl A C)
    as [W1 _].
  exact (W1 eq_refl).
Defined.

(** ** The further properties on concrete requests *)

Import MoreDemo.

Lemma ParseUpload_checksum_not_lower_hex_witness :
  errorOf (ParseUpload upperPost 1000)
  = Some (NewError "Content-MD5 did not match md5 of file data [14A5] != [1405]").
Proof.
  assert (X : all_lower_hex (Header_Get (Header upperPost) "Content-MD5") = false) by run.
  assert (C : consumedStream upperPost 1000 (section "a.txt" [] "hello")
              = Some (bytes "hello", None)) by run.
  exact (ParseUpload_checksum_not_lower_hex upperPost 1000
           (mkForm [section "a.txt" [] "hello"] io_EOF)
           (section "a.txt" [] "hello") [] (bytes "hello") None
           eq_refl eq_refl eq_refl X C).
Defined.

Lemma ParseUpload_multipart_body_release_witness :
  pending (Body plainPost) = bytes "plain body"
  /\ BodyClosed (requestOf (ParseUpload plainPost 1000)) = true
  /\ pending (Body (requestOf (ParseUpload plainPost 1000))) = [].
Proof.
  split; [reflexivity|].
  apply (proj1 (ParseUpload_multipart_body_release plainPost 1000 eq_refl)).
  vm_compute. discriminate.
Defined.

Lemma ParseUpload_no_first_section_witness :
  errorOf (ParseUpload plainPost 1000)
  = Some (NewError "request Content-Type isn't multipart/form-data")
  /\ errorOf (ParseUpload emptyPost 1000) = Some io_EOF.
Proof.
  split.
  - apply (proj1 (ParseUpload_no_first_section plainPost 1000 eq_refl)
             (NewError "request Content-Type isn't multipart/form-data") eq_refl).
  - apply (proj2 (ParseUpload_no_first_section emptyPost 1000 eq_refl)
             (mkForm [] io_EOF) eq_refl eq_refl).
Defined.

Lemma ParseUpload_declared_gzip_refused_witness :
  errorOf (ParseUpload refusedPost 1000)
  = Some (NewError
            "Content-Encoding == gzip but content was not gzipped: gzip: invalid header").
Proof.
  assert (E : Header_Get (Header refusedPost) "Content-MD5" <> "")
    by (vm_compute; discriminate).
  assert (G : Header_Get (Header refusedPost) "Content-Encoding" = "gzip") by run.
  assert (D : gzip_decode (capped 1000 (pending (part_Body (section "a.txt" [] "hello"))))
                (limited_error (pending (part_Body (section "a.txt" [] "hello")))
                               (failure (part_Body (section "a.txt" [] "hello")))
                               (add64 1000 1))
              = inr (NewError "gzip: invalid header")) by run.
  exact (ParseUpload_declared_gzip_refused refusedPost 1000
           (mkForm [section "a.txt" [] "hello"] io_EOF)
           (section "a.txt" [] "hello") [] (NewError "gzip: invalid header")
           eq_refl eq_refl eq_refl E G D).
Defined.

(** With every form field unreadable the upload goes through as before. *)
Example ParseUpload_badForm :
  errorOf (ParseUpload (withForm scanPost badForm) 1000) = None
  /\ ModifiedTime (recordOf (ParseUpload (withForm scanPost badForm) 1000)) = 0
  /\ IsChunkedFile (recordOf (ParseUpload (withForm scanPost badForm) 1000)) = false.
Proof. repeat split; run. Qed.

Lemma ParseUpload_MimeType_witness :
  errorOf (ParseUpload zerosPut 1000) = None
  /\ MimeType (recordOf (ParseUpload zerosPut 1000)) = ""
  /\ MimeType (recordOf (ParseUpload zerosPut 1000)) <> octetStream.
Proof.
  succeeds zerosPut 1000.
  split; [run|]. split; [run|].
  apply (proj2 (ParseUpload_MimeType zerosPut _ 1000 _ H) PUT_is_not_POST).
  run.
Defined.

Lemma acquire_multipart_flags_witness :
  Data (recordOf (acquire encodedScanPost 1000)) = bytes "world"
  /\ IsChunkedFile (recordOf (acquire encodedScanPost 1000)) = false
  /\ IsGzipped (recordOf (acquire encodedScanPost 1000)) = true.
Proof.
  assert (A : acquire encodedScanPost 1000
              = (requestOf (acquire encodedScanPost 1000),
                 recordOf (acquire encodedScanPost 1000), None)) by run.
  destruct (acquire_multipart_flags encodedScanPost _ 1000 _
              (mkForm [mkPart "" [("Content-Encoding", ["gzip"])]
                         (mkSource (bytes "hello") None);
                       section "b.txt" [] "world"] io_EOF)
              (mkPart "" [("Content-Encoding", ["gzip"])] (mkSource (bytes "hello") None))
              [section "b.txt" [] "world"]
              eq_refl eq_refl eq_refl A)
    as (W1 & W2 & _).
  split; [run|]. split; [run|].
  etransitivity; [apply W2; run|run].
Defined.

Lemma acquire_no_named_section_witness :
  errorOf (acquire namelessPost 1000) = None
  /\ FileName (recordOf (acquire namelessPost 1000)) = ""
  /\ Data (recordOf (acquire namelessPost 1000)) = bytes "hello"
  /\ MultipartReader (requestOf (acquire namelessPost 1000)) = inl (mkForm [] io_EOF).
Proof.
  assert (U : Forall (@unnamed) [section "" [] "x"])
    by (constructor; [reflexivity|constructor]).
  assert (A : acquiredFirst namelessPost 1000 (section "" [] "hello")
              = Some (bytes "hello", None)) by run.
  assert (C : checksumAgrees namelessPost (bytes "hello") = true) by run.
  assert (L : len (bytes "hello") <> add64 1000 1) by (vm_compute; discriminate).
  exact (acquire_no_named_section namelessPost 1000
           (mkForm [section "" [] "hello"; section "" [] "x"] io_EOF)
           (section "" [] "hello") [section "" [] "x"] (bytes "hello")
           eq_refl eq_refl eq_refl eq_refl U A C L).
Defined.

Lemma acquire_named_first_section_witness :
  errorOf (acquire namedFirstPost 1000) = None
  /\ FileName (recordOf (acquire namedFirstPost 1000)) = "a.txt"
  /\ Data (recordOf (acquire namedFirstPost 1000)) = bytes "hello"
  /\ MultipartReader (requestOf (acquire namedFirstPost 1000))
     = inl (mkForm [section "b.txt" [] "world"] io_EOF).
Proof.
  assert (N : part_FileName (section "dir/a.txt" [] "hello") <> "")
    by (vm_compute; discriminate).
  assert (A : acquiredFirst namedFirstPost 1000 (section "dir/a.txt" [] "hello")
              = Some (bytes "hello", None)) by run.
  assert (C : checksumAgrees namedFirstPost (bytes "hello") = true) by run.
  assert (L : len (bytes "hello") <> add64 1000 1) by (vm_compute; discriminate).
  exact (acquire_named_first_section namedFirstPost 1000
           (mkForm [section "dir/a.txt" [] "hello"; section "b.txt" [] "world"] io_EOF)
           (section "dir/a.txt" [] "hello") [section "b.txt" [] "world"] (bytes "hello")
           eq_refl eq_refl eq_refl N A C L).
Defined.

Lemma ParseUpload_Data_never_grows_witness :
  len (Data (recordOf (ParseUpload zerosPut 1000))) = 3
  /\ exists pu0,
       acquire zerosPut 1000 = (requestOf (ParseUpload zerosPut 1000), pu0, None)
       /\ len (Data (recordOf (ParseUpload zerosPut 1000))) <= len (Data pu0).
Proof.
  succeeds zerosPut 1000.
  split; [run|].
  destruct (ParseUpload_Data_never_grows zerosPut _ 1000 _ H) as (pu0 & A & L & _).
  exists pu0. split; assumption.
Defined.

Lemma ParseUpload_multipart_within_limit_witness :
  len (Data (recordOf (ParseUpload scanPost 5))) <= 5.
Proof.
  succeeds scanPost 5.
  assert (R : -1 <= 5 < 2 ^ 63 - 1) by lia.
  assert (P : Header_Get (Header scanPost) "Content-MD5" = ""
              \/ Header_Get (Header scanPost) "Content-Encoding" <> "gzip")
    by (left; run).
  exact (ParseUpload_multipart_within_limit scanPost _ 5 _ eq_refl R P H).
Defined.

Lemma ParseUpload_put_truncates_witness :
  errorOf (ParseUpload longPut 2) = None
  /\ UncompressedData (recordOf (ParseUpload longPut 2)) = bytes "abc"
  /\ OriginalDataSize (recordOf (ParseUpload longPut 2)) = 3.
Proof.
  assert (G : Header_Get (Header longPut) "Content-Encoding" <> "gzip")
    by (vm_compute; discriminate).
  assert (R : 0 <= 2 < 2 ^ 63 - 1) by lia.
  exact (ParseUpload_put_truncates longPut 2 PUT_is_not_POST R G).
Defined.

Lemma ParseUpload_put_wrapped_cap_witness :
  errorOf (ParseUpload longPut (2 ^ 63 - 1)) = None
  /\ Data (recordOf (ParseUpload longPut (2 ^ 63 - 1))) = []
  /\ pending (Body (requestOf (ParseUpload longPut (2 ^ 63 - 1)))) = bytes "abcdef"
  /\ BodyClosed (requestOf (ParseUpload longPut (2 ^ 63 - 1))) = true.
Proof.
  apply (ParseUpload_put_wrapped_cap longPut (2 ^ 63 - 1) PUT_is_not_POST).
  vm_compute. reflexivity.
Defined.

Lemma ParseUpload_put_again_witness :
  Data (recordOf (ParseUpload zerosPut 1000)) = [x1f; x8b; x28]
  /\ errorOf (ParseUpload zerosAgainPut 1000) = None
  /\ IsGzipped (recordOf (ParseUpload zerosAgainPut 1000)) = true
  /\ Data (recordOf (ParseUpload zerosAgainPut 1000))
     = Data (recordOf (ParseUpload zerosPut 1000))
  /\ UncompressedData (recordOf (ParseUpload zerosAgainPut 1000))
     = UncompressedData (recordOf (ParseUpload zerosPut 1000))
  /\ OriginalDataSize (recordOf (ParseUpload zerosAgainPut 1000))
     = OriginalDataSize (recordOf (ParseUpload zerosPut 1000)).
Proof.
  succeeds zerosPut 1000.
  assert (G : IsGzipped (recordOf (ParseUpload zerosPut 1000)) = true) by run.
  assert (C : Header_Get (Header zerosAgainPut) "Content-Encoding" = "gzip") by run.
  assert (B : pending (Body zerosAgainPut) = Data (recordOf (ParseUpload zerosPut 1000)))
    by run.
  assert (R : 0 <= 1000 < 2 ^ 63 - 1) by lia.
  split; [run|].
  exact (ParseUpload_put_again zerosPut _ zerosAgainPut 1000 _
           DemoFacts.codec_lossless PUT_is_not_POST PUT_is_not_POST R H G C B).
Defined.

Lemma ParseUpload_first_section_read_error_witness :
  errorOf (ParseUpload brokenPost 1000) = Some (NewError "connection reset by peer").
Proof.
  assert (A : acquiredFirst brokenPost 1000
                (mkPart "a.txt" []
                   (mkSource (bytes "he") (Some (NewError "connection reset by peer"))))
              = Some (bytes "he", Some (NewError "connection reset by peer"))) by run.
  assert (C : checksumAgrees brokenPost (bytes "he") = true) by run.
  exact (ParseUpload_first_section_read_error brokenPost 1000
           (mkForm [mkPart "a.txt" []
                      (mkSource (bytes "he") (Some (NewError "connection reset by peer")))]
                   io_EOF)
           _ [] (bytes "he") (NewError "connection reset by peer")
           eq_refl eq_refl eq_refl A C).
Defined.

Lemma ParseUpload_replacement_read_error_witness :
  errorOf (ParseUpload brokenScanPost 1000) = Some (NewError "connection reset by peer").
Proof.
  assert (N : part_FileName
                (mkPart "b.txt" []
                   (mkSource (bytes "wo") (Some (NewError "connection reset by peer"))))
              <> "") by (vm_compute; discriminate).
  assert (A : acquiredFirst brokenScanPost 1000 (section "" [] "hello")
              = Some (bytes "hello", None)) by run.
  assert (C : checksumAgrees brokenScanPost (bytes "hello") = true) by run.
  assert (L : len (bytes "hello") <> add64 1000 1) by (vm_compute; discriminate).
  assert (S : len (pending (part_Body
                (mkPart "b.txt" []
                   (mkSource (bytes "wo") (Some (NewError "connection reset by peer"))))))
              < add64 1000 1) by (vm_compute; reflexivity).
  exact (ParseUpload_replacement_read_error brokenScanPost 1000
           (mkForm [section "" [] "hello";
                    mkPart "b.txt" []
                      (mkSource (bytes "wo") (Some (NewError "connection reset by peer")))]
                   io_EOF)
           (section "" [] "hello") _ [] [] (bytes "hello") "connection reset by peer"
           eq_refl eq_refl eq_refl eq_refl (Forall_nil _) N A C L eq_refl S).
Defined.
